(** * Breed-classification record pipeline: shallow embedding of the edge functions

    The three Deno edge functions of the repository are embedded here:
    - [classify_breed]: supabase/functions/classify-breed/index.ts, and its
      storage-fallback variant (src/unnamed/part_001, first half);
    - [get_animal_records]: src/unnamed/part_001, second half;
    - [update_animal_record]: src/unnamed/part_002.

    The managed datastore, the auth service and the network are external
    collaborators: what they answer is an input of the handler (an
    environment record), and the tables they hold are an explicit store
    threaded through the handler. *)

From Stdlib Require Import String Ascii ZArith QArith List Bool Lia.
From Stdlib Require Import DecimalString.
Import ListNotations.

Set Warnings "-register-all".

Open Scope string_scope.

(** ** JSON values and JS helpers *)

(** A parsed JSON value. Numbers received by these handlers are integers. *)
Inductive jval : Type :=
| JNull
| JBool (b : bool)
| JNum (n : Z)
| JStr (s : string)
| JArr (xs : list jval)
| JObj (fs : list (string * jval)).

Fixpoint jval_eqb (a b : jval) {struct a} : bool :=
  let fix list_eqb (xs ys : list jval) : bool :=
    match xs, ys with
    | [], [] => true
    | x :: xs', y :: ys' => jval_eqb x y && list_eqb xs' ys'
    | _, _ => false
    end in
  let fix fields_eqb (xs ys : list (string * jval)) : bool :=
    match xs, ys with
    | [], [] => true
    | (k, x) :: xs', (k', y) :: ys' =>
        String.eqb k k' && jval_eqb x y && fields_eqb xs' ys'
    | _, _ => false
    end in
  match a, b with
  | JNull, JNull => true
  | JBool x, JBool y => Bool.eqb x y
  | JNum x, JNum y => Z.eqb x y
  | JStr x, JStr y => String.eqb x y
  | JArr xs, JArr ys => list_eqb xs ys
  | JObj xs, JObj ys => fields_eqb xs ys
  | _, _ => false
  end.

(** JS truthiness of a destructured property ([None] is [undefined]):
    the test behind [!x] and [if (x)]. *)
Definition truthy (v : option jval) : bool :=
  match v with
  | None | Some JNull => false
  | Some (JBool b) => b
  | Some (JNum n) => negb (Z.eqb n 0)
  | Some (JStr s) => negb (String.eqb s "")
  | Some (JArr _) | Some (JObj _) => true
  end.

(** Property read on an object built by [JSON.parse]: the last duplicate
    key wins. *)
Fixpoint prop (k : string) (fs : list (string * jval)) : option jval :=
  match fs with
  | [] => None
  | (k', v) :: rest =>
      match prop k rest with
      | Some w => Some w
      | None => if String.eqb k k' then Some v else None
      end
  end.

(** A JS number as these handlers produce it: an integer or NaN. *)
Inductive jsnum : Type :=
| Int (z : Z)
| NaN.

Definition js_add (a b : jsnum) : jsnum :=
  match a, b with Int x, Int y => Int (x + y) | _, _ => NaN end.

Definition js_sub (a b : jsnum) : jsnum :=
  match a, b with Int x, Int y => Int (x - y) | _, _ => NaN end.

(** [a > b]: false as soon as one side is NaN. *)
Definition js_gt (a b : jsnum) : bool :=
  match a, b with Int x, Int y => Z.gtb x y | _, _ => false end.

(** [Math.min(a, b)]: NaN if either argument is NaN. *)
Definition js_min (a b : jsnum) : jsnum :=
  match a, b with Int x, Int y => Int (Z.min x y) | _, _ => NaN end.

(** Thrown JS exceptions, caught by the handlers' generic [catch]. *)
Inductive exn : Type :=
| SyntaxError (msg : string)
| TypeError (msg : string)
| Error (msg : string).

Definition exn_message (e : exn) : string :=
  match e with SyntaxError m | TypeError m | Error m => m end.

(** ** Data model (the rows of the tables the handlers touch) *)

Record prediction := mkPrediction {
  breed : string;
  confidence : Q
}.

Record AnimalRecord := mkAnimalRecord {
  id : string;
  user_id : jval;
  animal_id : jval;
  animal_type : jval;
  predicted_breed : option string;
  manual_breed : option string;
  final_breed : option string;
  confidence_score : option Q;
  image_url : option string;
  location_data : option jval;
  owner_details : option jval;
  verification_status : jval;
  verified_by : option string;
  notes : option jval;
  created_at : Z
}.

Record PredictionLog := mkPredictionLog {
  animal_record_id : string;
  log_image_url : string;
  predicted_breeds : list prediction;
  model_version : string;
  log_processing_time_ms : Z
}.

(** The two tables written by the handlers. *)
Record store := mkStore {
  animal_records : list AnimalRecord;
  breed_predictions : list PredictionLog
}.

(** ** Requests and responses *)

Record request := mkRequest {
  method : string;
  headers : list (string * string);
  query_params : list (string * string);
  (** the body as [req.json()] sees it: [None] when it is not JSON *)
  req_body : option jval
}.

Record pagination := mkPagination {
  total : Z;
  p_limit : jsnum;
  p_offset : jsnum;
  has_more : bool
}.

Inductive resp_body : Type :=
| Preflight
| ErrBody (error : string) (details : option string)
| ClassifyOk (animal_record_id : string) (predictions : list prediction)
    (top_prediction : prediction) (processing_time_ms : Z)
| ListOk (records : list AnimalRecord) (pg : pagination)
| UpdateOk (record : AnimalRecord).

Record response := mkResponse {
  status : Z;
  body : resp_body
}.

Definition err (code : Z) (msg : string) (details : option string) : response :=
  mkResponse code (ErrBody msg details).

Definition internal_error (e : exn) : response :=
  err 500 "Internal server error" (Some (exn_message e)).

(** ** State and exception monad of a handler run

    A thrown exception keeps the writes done before it, as in JS. *)

Definition M (A : Type) : Type := store -> (exn + A) * store.

Definition ret {A} (a : A) : M A := fun s => (inr a, s).

Definition bind {A B} (m : M A) (f : A -> M B) : M B :=
  fun s => match m s with
           | (inl e, s') => (inl e, s')
           | (inr a, s') => f a s'
           end.

Definition throw {A} (e : exn) : M A := fun s => (inl e, s).

Definition lift {A} (r : exn + A) : M A := fun s => (r, s).

Notation "x <- m ;; k" := (bind m (fun x => k))
  (at level 61, m at next level, right associativity).

(** [try { body } catch (error) { return h(error) }] *)
Definition run_handler (m : M response) (h : exn -> response) (s : store)
  : response * store :=
  match m s with
  | (inl e, s') => (h e, s')
  | (inr r, s') => (r, s')
  end.

(** [await req.json()] *)
Definition req_json (req : request) : exn + jval :=
  match req_body req with
  | Some v => inr v
  | None => inl (SyntaxError "Unexpected token in JSON")
  end.

(** [const { a, b, ... } = v]: properties of an object; [undefined] for the
    properties of any other non-null value; a TypeError on [null]. *)
Definition destructure (v : jval) : exn + (string -> option jval) :=
  match v with
  | JNull => inl (TypeError "Cannot destructure property of null")
  | JObj fs => inr (fun k => prop k fs)
  | _ => inr (fun _ => None)
  end.

(** [`${n}`] for an integer. *)
Definition z_to_string (z : Z) : string := NilZero.string_of_int (Z.to_int z).

(** [String.prototype.split(sep)] on a one-character separator. *)
Fixpoint split_on (sep : ascii) (s : string) : list string :=
  match s with
  | EmptyString => [""]
  | String c rest =>
      match split_on sep rest with
      | [] => []
      | w :: ws => if Ascii.eqb c sep then "" :: w :: ws else String c w :: ws
      end
  end.

(** [xs.indexOf(x)], [-1] when absent. *)
Fixpoint index_of (x : string) (xs : list string) : Z :=
  match xs with
  | [] => -1
  | y :: ys =>
      if String.eqb x y then 0
      else let i := index_of x ys in if (i <? 0)%Z then -1 else (i + 1)%Z
  end.

(** ** The classify-breed handler *)

(** The external collaborators of one classify call: the clock and the
    datastore's answers. *)
Record classify_env := mkClassifyEnv {
  (** [Date.now() - startTime] *)
  elapsed_ms : Z;
  (** the identity the datastore gives a newly inserted row *)
  fresh_record_id : string;
  (** the [created_at] default of a newly inserted row *)
  now_ts : Z;
  (** [recordError] of the upsert: [Some message] on failure *)
  upsert_error : option string;
  (** [logError] of the prediction-log insert *)
  log_insert_error : option string
}.

(** What [fetch(url)] gives: a response with its HTTP status, or a
    rejected promise. *)
Inductive fetch_result : Type :=
| Reached (http_status : Z)
| NetworkError (msg : string).

(** classify-breed/index.ts: [fetch(image_url)], then [imageResponse.ok]. *)
Definition obtain_by_fetch (fetch : string -> fetch_result) (url : string)
  : exn + unit :=
  match fetch url with
  | NetworkError m => inl (TypeError m)
  | Reached st =>
      if (200 <=? st)%Z && (st <=? 299)%Z then inr tt
      else inl (Error ("Failed to fetch image: " ++ z_to_string st))
  end.

(** part_001: the bucket and object path named by a URL path of the form
    [.../public/<bucket>/<object path>]. *)
Definition storage_target (pathname : string) : option (string * string) :=
  let parts := filter (fun w => negb (String.eqb w "")) (split_on "/"%char pathname) in
  let idxPublic := index_of "public" parts in
  if (0 <=? idxPublic)%Z then
    match nth_error parts (Z.to_nat (idxPublic + 1)) with
    | Some bucketId =>
        if String.eqb bucketId "" then None
        else Some (bucketId,
                   String.concat "/" (skipn (Z.to_nat (idxPublic + 2)) parts))
    | None => None
    end
  else None.

(** part_001: storage download first, HTTP fetch when the URL names no
    bucket object ([url_pathname] is [new URL(u).pathname], [None] when it
    throws) or the download fails. *)
Definition obtain_via_storage (url_pathname : string -> option string)
  (download_ok : string -> string -> bool) (fetch : string -> fetch_result)
  (url : string) : exn + unit :=
  let fromStorage :=
    match url_pathname url with
    | Some path =>
        match storage_target path with
        | Some (bucketId, objectPath) => download_ok bucketId objectPath
        | None => false
        end
    | None => false
    end in
  if fromStorage then inr tt else obtain_by_fetch fetch url.

(** The upsert payload of [animal_records]. *)
Record upsert_row := mkUpsertRow {
  row_user_id : jval;
  row_animal_id : jval;
  row_animal_type : jval;
  row_predicted_breed : string;
  row_confidence_score : Q;
  row_image_url : string;
  row_verification_status : jval
}.

(** [onConflict: 'animal_id,user_id'] *)
Definition same_key (row : upsert_row) (r : AnimalRecord) : bool :=
  jval_eqb (animal_id r) (row_animal_id row) && jval_eqb (user_id r) (row_user_id row).

(** On conflict the payload's columns overwrite the row's; the others stay. *)
Definition merge_row (row : upsert_row) (r : AnimalRecord) : AnimalRecord :=
  mkAnimalRecord (id r) (row_user_id row) (row_animal_id row) (row_animal_type row)
    (Some (row_predicted_breed row)) (manual_breed r) (final_breed r)
    (Some (row_confidence_score row)) (Some (row_image_url row))
    (location_data r) (owner_details r) (row_verification_status row)
    (verified_by r) (notes r) (created_at r).

(** Without conflict a row is inserted; columns absent from the payload
    take their defaults (null). *)
Definition new_row (rid : string) (now : Z) (row : upsert_row) : AnimalRecord :=
  mkAnimalRecord rid (row_user_id row) (row_animal_id row) (row_animal_type row)
    (Some (row_predicted_breed row)) None None
    (Some (row_confidence_score row)) (Some (row_image_url row))
    None None (row_verification_status row) None None now.

(** [.upsert(row, { onConflict: 'animal_id,user_id' }).select().single()]
    once the datastore accepts it: the new table and the returned row. *)
Definition upsert_on_conflict (rid : string) (now : Z) (row : upsert_row)
  (rs : list AnimalRecord) : list AnimalRecord * AnimalRecord :=
  match find (same_key row) rs with
  | Some r =>
      (map (fun r' => if same_key row r' then merge_row row r' else r') rs,
       merge_row row r)
  | None =>
      let r := new_row rid now row in ((rs ++ [r])%list, r)
  end.

(** [animalType === s] *)
Definition strict_eq_str (v : option jval) (s : string) : bool :=
  match v with Some (JStr x) => String.eqb x s | _ => false end.

(** The value of a property already known to be truthy. *)
Definition defined (v : option jval) : jval :=
  match v with Some x => x | None => JNull end.

Section Classify.

Variable env : classify_env.
(** The way the handler variant obtains the image blob: [obtain_by_fetch]
    (index.ts) or [obtain_via_storage] (part_001). *)
Variable obtain_image : string -> exn + unit.

Definition mock_predictions (animal_type : option jval) : list prediction :=
  if strict_eq_str animal_type "cattle" then
    [mkPrediction "gir" 0.85; mkPrediction "sahiwal" 0.12;
     mkPrediction "jersey_cross" 0.03]
  else if strict_eq_str animal_type "buffalo" then
    [mkPrediction "murrah" 0.78; mkPrediction "nili_ravi" 0.15;
     mkPrediction "surti" 0.07]
  else [].

(** [if (!image_url || !image_url.startsWith('http')) throw ...] *)
Definition http_image_url (v : option jval) : exn + string :=
  if negb (truthy v) then inl (Error "Invalid image URL provided")
  else match v with
       | Some (JStr u) =>
           if String.prefix "http" u then inr u
           else inl (Error "Invalid image URL provided")
       | _ => inl (TypeError "image_url.startsWith is not a function")
       end.

(** [topPrediction.breed] where [topPrediction = predictions[0]]. *)
Definition read_top (topPrediction : option prediction) : exn + prediction :=
  match topPrediction with
  | Some p => inr p
  | None => inl (TypeError "Cannot read properties of undefined (reading 'breed')")
  end.

Definition db_upsert (row : upsert_row) : M (string + AnimalRecord) :=
  fun s =>
    match upsert_error env with
    | Some msg => (inr (inl msg), s)
    | None =>
        let (rs, r) := upsert_on_conflict (fresh_record_id env) (now_ts env) row
                         (animal_records s) in
        (inr (inr r), mkStore rs (breed_predictions s))
    end.

Definition db_insert_log (l : PredictionLog) : M (option string) :=
  fun s =>
    match log_insert_error env with
    | Some msg => (inr (Some msg), s)
    | None => (inr None, mkStore (animal_records s) (breed_predictions s ++ [l])%list)
    end.

(** The body of the [try] block. *)
Definition classify_body (req : request) : M response :=
  v <- lift (req_json req) ;;
  fields <- lift (destructure v) ;;
  let image_url := fields "image_url" in
  let animal_id := fields "animal_id" in
  let user_id := fields "user_id" in
  let animal_type := fields "animal_type" in
  if negb (truthy image_url) || negb (truthy animal_id)
     || negb (truthy user_id) || negb (truthy animal_type)
  then ret (err 400 "Missing required fields: image_url, animal_id, user_id, animal_type" None)
  else
    url <- lift (http_image_url image_url) ;;
    _ <- lift (obtain_image url) ;;
    let processingTime := elapsed_ms env in
    let predictions := mock_predictions animal_type in
    let topPrediction := nth_error predictions 0 in
    top <- lift (read_top topPrediction) ;;
    upserted <- db_upsert (mkUpsertRow (defined user_id) (defined animal_id)
                             (defined animal_type) (breed top) (confidence top)
                             url (JStr "pending")) ;;
    match upserted with
    | inl recordError =>
        ret (err 500 "Failed to create animal record" (Some recordError))
    | inr animalRecord =>
        _ <- db_insert_log (mkPredictionLog (id animalRecord) url predictions
                              "resnet-50-v1.0" processingTime) ;;
        ret (mkResponse 200 (ClassifyOk (id animalRecord) predictions top
                                         processingTime))
    end.

Definition classify_breed (req : request) (s : store) : response * store :=
  if String.eqb (method req) "OPTIONS" then (mkResponse 200 Preflight, s)
  else run_handler (classify_body req) internal_error s.

End Classify.

(** ** String helpers of the record surface (ASCII) *)

(** [\s] on ASCII: space, tab, LF, VT, FF, CR. *)
Definition is_ws (c : ascii) : bool :=
  let n := nat_of_ascii c in Nat.eqb n 32 || ((9 <=? n) && (n <=? 13))%nat.

Definition to_lower (c : ascii) : ascii :=
  let n := nat_of_ascii c in
  if ((65 <=? n) && (n <=? 90))%nat then ascii_of_nat (n + 32) else c.

(** [s.toLowerCase()] *)
Fixpoint lowercase (s : string) : string :=
  match s with
  | EmptyString => EmptyString
  | String c r => String (to_lower c) (lowercase r)
  end.

(** [s.replace(/\s+/g, '_')]; [in_run] is true inside a whitespace run. *)
Fixpoint collapse_ws (in_run : bool) (s : string) : string :=
  match s with
  | EmptyString => EmptyString
  | String c r =>
      if is_ws c then
        if in_run then collapse_ws true r else String "_" (collapse_ws true r)
      else String c (collapse_ws false r)
  end.

(** [s.replace(pat, rep)] with a string pattern: the first occurrence. *)
Definition replace_first (pat rep s : string) : string :=
  match String.index 0 pat s with
  | Some n =>
      substring 0 n s ++ rep
      ++ substring (n + String.length pat) (String.length s) s
  | None => s
  end.

Fixpoint trim_start (s : string) : string :=
  match s with
  | String c r => if is_ws c then trim_start r else s
  | EmptyString => EmptyString
  end.

Definition digit_val (radix : Z) (c : ascii) : option Z :=
  let n := Z.of_nat (nat_of_ascii c) in
  let d := (if (48 <=? n) && (n <=? 57) then Some (n - 48)
            else if (97 <=? n) && (n <=? 122) then Some (n - 87)
            else if (65 <=? n) && (n <=? 90) then Some (n - 55)
            else None)%Z in
  match d with Some v => if (v <? radix)%Z then Some v else None | None => None end.

(** The longest prefix of digits, [None] when there is none. *)
Fixpoint parse_digits (radix : Z) (s : string) (acc : Z) (seen : bool) : option Z :=
  match s with
  | String c r =>
      match digit_val radix c with
      | Some d => parse_digits radix r (acc * radix + d)%Z true
      | None => if seen then Some acc else None
      end
  | EmptyString => if seen then Some acc else None
  end.

(** [parseInt(s)] without a radix: leading whitespace, an optional sign, a
    [0x] prefix for hexadecimal, then the longest digit prefix. *)
Definition parseInt (s : string) : jsnum :=
  let t := trim_start s in
  let '(sign, t1) :=
    match t with
    | String c r =>
        if Ascii.eqb c "-" then ((-1)%Z, r)
        else if Ascii.eqb c "+" then (1%Z, r) else (1%Z, t)
    | EmptyString => (1%Z, t)
    end in
  let '(radix, t2) :=
    match t1 with
    | String z (String x r) =>
        if Ascii.eqb z "0" && (Ascii.eqb x "x" || Ascii.eqb x "X")
        then (16%Z, r) else (10%Z, t1)
    | _ => (10%Z, t1)
    end in
  match parse_digits radix t2 0%Z false with
  | Some v => Int (sign * v)%Z
  | None => NaN
  end.

(** [req.headers.get(name)]: names compare case-insensitively. *)
Fixpoint header_get (name : string) (hs : list (string * string)) : option string :=
  match hs with
  | [] => None
  | (k, v) :: rest =>
      if String.eqb (lowercase k) (lowercase name) then Some v
      else header_get name rest
  end.

(** [url.searchParams.get(name)]: the first value, [null] when absent. *)
Fixpoint param_get (name : string) (ps : list (string * string)) : option string :=
  match ps with
  | [] => None
  | (k, v) :: rest => if String.eqb k name then Some v else param_get name rest
  end.

(** The bearer-token check shared by the record handlers: either the
    response it returns early, or the authenticated user's id.
    [get_user] is the auth service's answer to [supabase.auth.getUser]. *)
Definition authenticate (get_user : string -> option string) (req : request)
  : response + string :=
  match header_get "Authorization" (headers req) with
  | None => inl (err 401 "Authorization header required" None)
  | Some authHeader =>
      if String.eqb authHeader "" then inl (err 401 "Authorization header required" None)
      else match get_user (replace_first "Bearer " "" authHeader) with
           | Some uid => inr uid
           | None => inl (err 401 "Invalid or expired token" None)
           end
  end.

(** ** The get-animal-records handler *)

(** The record query the handler sends to the datastore. *)
Record records_query := mkRecordsQuery {
  q_user_id : string;
  q_range_from : jsnum;
  q_range_to : jsnum;
  q_verification_status : option string;
  q_animal_type : option string
}.

Record list_env := mkListEnv {
  list_get_user : string -> option string;
  (** the datastore's answer to the record query: [inl message] on error *)
  answer_records : records_query -> string + list AnimalRecord;
  (** [countError] of the count query *)
  count_error : option string
}.

Definition owned_by (uid : string) (r : AnimalRecord) : bool :=
  jval_eqb (user_id r) (JStr uid).

(** [parseInt(url.searchParams.get('limit') || '50')] and the like. *)
Definition param_or (name dflt : string) (ps : list (string * string)) : string :=
  match param_get name ps with
  | Some v => if String.eqb v "" then dflt else v
  | None => dflt
  end.

Definition page_limit (ps : list (string * string)) : jsnum :=
  js_min (parseInt (param_or "limit" "50" ps)) (Int 100).

Definition page_offset (ps : list (string * string)) : jsnum :=
  parseInt (param_or "offset" "0" ps).

Definition allowed_filter (allowed : list string) (v : option string) : option string :=
  match v with
  | Some x => if existsb (String.eqb x) allowed then Some x else None
  | None => None
  end.

Section ListRecords.

Variable env : list_env.

Definition list_query (uid : string) (ps : list (string * string)) : records_query :=
  let limit := page_limit ps in
  let offset := page_offset ps in
  mkRecordsQuery uid offset (js_sub (js_add offset limit) (Int 1))
    (allowed_filter ["pending"; "verified"; "rejected"] (param_get "status" ps))
    (allowed_filter ["cattle"; "buffalo"] (param_get "animal_type" ps)).

(** [count || 0] of the exact count query on the caller's rows. *)
Definition record_count (uid : string) (s : store) : Z :=
  match count_error env with
  | Some _ => 0
  | None => Z.of_nat (length (filter (owned_by uid) (animal_records s)))
  end.

Definition list_body (req : request) : M response :=
  fun s =>
    match authenticate (list_get_user env) req with
    | inl early => (inr early, s)
    | inr uid =>
        let ps := query_params req in
        let limit := page_limit ps in
        let offset := page_offset ps in
        match answer_records env (list_query uid ps) with
        | inl msg => (inr (err 500 "Failed to fetch animal records" (Some msg)), s)
        | inr records =>
            let count := record_count uid s in
            (inr (mkResponse 200
                    (ListOk records
                       (mkPagination count limit offset
                          (js_gt (Int count) (js_add offset limit))))), s)
        end
    end.

Definition get_animal_records (req : request) (s : store) : response * store :=
  if String.eqb (method req) "OPTIONS" then (mkResponse 200 Preflight, s)
  else run_handler (list_body req) internal_error s.

End ListRecords.

(** ** The update-animal-record handler *)

(** [updateData]: the columns the update writes ([None]: not written). *)
Record update_data := mkUpdateData {
  set_manual_breed : option string;
  set_final_breed : option string;
  set_verification_status : option jval;
  set_notes : option jval;
  set_location_data : option jval;
  set_owner_details : option jval;
  set_verified_by : option string
}.

(** A JSON value written to a nullable column. *)
Definition to_column (v : jval) : option jval :=
  match v with JNull => None | _ => Some v end.

Definition write {A} (w : option A) (old : A) : A :=
  match w with Some x => x | None => old end.

Definition apply_update (d : update_data) (r : AnimalRecord) : AnimalRecord :=
  mkAnimalRecord (id r) (user_id r) (animal_id r) (animal_type r)
    (predicted_breed r)
    (write (option_map Some (set_manual_breed d)) (manual_breed r))
    (write (option_map Some (set_final_breed d)) (final_breed r))
    (confidence_score r) (image_url r)
    (write (option_map to_column (set_location_data d)) (location_data r))
    (write (option_map to_column (set_owner_details d)) (owner_details r))
    (write (set_verification_status d) (verification_status r))
    (write (option_map Some (set_verified_by d)) (verified_by r))
    (write (option_map to_column (set_notes d)) (notes r))
    (created_at r).

(** [.eq('id', record_id).eq('user_id', user.id)] *)
Definition update_filter (record_id : jval) (uid : string) (r : AnimalRecord) : bool :=
  jval_eqb record_id (JStr (id r)) && owned_by uid r.

Record update_env := mkUpdateEnv {
  update_get_user : string -> option string;
  (** [error] of the update when the datastore rejects the statement *)
  update_error : option string
}.

(** [if (x) updateData.k = x.toLowerCase().replace(/\s+/g, '_')] *)
Definition normalize_breed (what : string) (v : option jval) : exn + option string :=
  if truthy v then
    match v with
    | Some (JStr x) => inr (Some (collapse_ws false (lowercase x)))
    | _ => inl (TypeError (what ++ ".toLowerCase is not a function"))
    end
  else inr None.

Definition if_truthy (v : option jval) : option jval :=
  if truthy v then v else None.

Section UpdateRecord.

Variable env : update_env.

(** [.update(updateData).eq(...).eq(...).select().single()]: the pair
    [{ data, error }]. The datastore runs the update on the rows the filter
    keeps; [.single()] asks for exactly one row back, and a result of zero or
    several rows is reported as an error (PGRST116) with no data, the
    statement being rolled back. *)
Definition db_update_single (d : update_data) (record_id : jval) (uid : string)
  : M (option string * option AnimalRecord) :=
  fun s =>
    match update_error env with
    | Some msg => (inr (Some msg, None), s)
    | None =>
        match filter (update_filter record_id uid) (animal_records s) with
        | [r] =>
            (inr (None, Some (apply_update d r)),
             mkStore (map (fun r' => if update_filter record_id uid r'
                                     then apply_update d r' else r')
                          (animal_records s))
                     (breed_predictions s))
        | _ =>
            (inr (Some "JSON object requested, multiple (or no) rows returned", None), s)
        end
    end.

Definition update_body (req : request) : M response :=
  match authenticate (update_get_user env) req with
  | inl early => ret early
  | inr uid =>
      v <- lift (req_json req) ;;
      fields <- lift (destructure v) ;;
      let record_id := fields "record_id" in
      let manual_breed := fields "manual_breed" in
      let final_breed := fields "final_breed" in
      let verification_status := fields "verification_status" in
      let notes := fields "notes" in
      let location_data := fields "location_data" in
      let owner_details := fields "owner_details" in
      if negb (truthy record_id) then ret (err 400 "record_id is required" None)
      else
        mb <- lift (normalize_breed "manual_breed" manual_breed) ;;
        fb <- lift (normalize_breed "final_breed" final_breed) ;;
        let updateData :=
          mkUpdateData mb fb (if_truthy verification_status) notes
            (if_truthy location_data) (if_truthy owner_details)
            (if truthy verification_status
                && (strict_eq_str verification_status "verified"
                    || strict_eq_str verification_status "rejected")
             then Some uid else None) in
        res <- db_update_single updateData (defined record_id) uid ;;
        match res with
        | (Some error, _) =>
            ret (err 500 "Failed to update animal record" (Some error))
        | (None, None) =>
            ret (err 404 "Record not found or access denied" None)
        | (None, Some updatedRecord) =>
            ret (mkResponse 200 (UpdateOk updatedRecord))
        end
  end.

Definition update_animal_record (req : request) (s : store) : response * store :=
  if String.eqb (method req) "OPTIONS" then (mkResponse 200 Preflight, s)
  else run_handler (update_body req) internal_error s.

End UpdateRecord.

(** ** Display helper of the record pages *)

(** [c.toUpperCase()] on an ASCII character. *)
Definition to_upper (c : ascii) : ascii :=
  let n := nat_of_ascii c in
  if ((97 <=? n) && (n <=? 122))%nat then ascii_of_nat (n - 32) else c.

(** [word.charAt(0).toUpperCase() + word.slice(1)] *)
Definition capitalize (word : string) : string :=
  match word with
  | EmptyString => EmptyString
  | String c r => String (to_upper c) r
  end.

(** Records.tsx [formatBreedName]:
    [breed.split('_').map(capitalize).join(' ')]. *)
Definition formatBreedName (breed : string) : string :=
  String.concat " " (map capitalize (split_on "_"%char breed)).

(** ** Vocabulary of the properties *)

(** The same classify environment with another answer to the log insert. *)
Definition with_log_error (env : classify_env) (e : option string) : classify_env :=
  mkClassifyEnv (elapsed_ms env) (fresh_record_id env) (now_ts env)
    (upsert_error env) e.

(** Each confidence is at most the one before it. *)
Fixpoint conf_nonincreasing (ps : list prediction) : bool :=
  match ps with
  | p :: ((q :: _) as rest) =>
      Qle_bool (confidence q) (confidence p) && conf_nonincreasing rest
  | _ => true
  end.

(** Every occurrence of the character [c] replaced by [d]. *)
Fixpoint subst_char (c d : ascii) (s : string) : string :=
  match s with
  | EmptyString => EmptyString
  | String x r => String (if Ascii.eqb x c then d else x) (subst_char c d r)
  end.


(** The columns of a record that no update statement writes. *)
Definition fixed_columns (r : AnimalRecord)
  : string * jval * jval * jval * option string * option Q * option string * Z :=
  (id r, user_id r, animal_id r, animal_type r, predicted_breed r,
   confidence_score r, image_url r, created_at r).

(** The records of the store whose key is the one of an upsert payload. *)
Definition key_rows (row : upsert_row) (rs : list AnimalRecord) : list AnimalRecord :=
  filter (same_key row) rs.

(** ** Concrete scenarios *)

(** A cattle record owned by [user-b]. *)
Definition record_of_b : AnimalRecord :=
  mkAnimalRecord "rec-b" (JStr "user-b") (JStr "A-17") (JStr "cattle")
    (Some "gir") None None (Some 0.85%Q)
    (Some "https://host/storage/v1/object/public/animal-images/b.jpg")
    None None (JStr "pending") None None 1000.

Definition store_of_b : store := mkStore [record_of_b] [].

(** An auth service that knows the token of [user-a] and of [user-b]. *)
Definition tokens (tok : string) : option string :=
  if String.eqb tok "token-a" then Some "user-a"
  else if String.eqb tok "token-b" then Some "user-b" else None.

Definition update_env_ok : update_env := mkUpdateEnv tokens None.

Definition bearer (tok : string) : list (string * string) :=
  [("Authorization", "Bearer " ++ tok)].

(** [user-a] edits the notes of [user-b]'s record. *)
Definition req_edit_foreign : request :=
  mkRequest "POST" (bearer "token-a") []
    (Some (JObj [("record_id", JStr "rec-b"); ("notes", JStr "checked")])).

(** The owner sets the verification status of a record. *)
Definition req_set_status (tok st : string) : request :=
  mkRequest "POST" (bearer tok) []
    (Some (JObj [("record_id", JStr "rec-b"); ("verification_status", JStr st)])).

Definition cattle_url : string :=
  "https://host/storage/v1/object/public/animal-images/a.jpg".

(** A classify request for an image of the given species. *)
Definition classify_fields (species : string) : list (string * jval) :=
  [("image_url", JStr cattle_url);
   ("animal_id", JStr "A-17"); ("user_id", JStr "user-a");
   ("animal_type", JStr species)].

Definition classify_request (species : string) : request :=
  mkRequest "POST" [] [] (Some (JObj (classify_fields species))).

Definition classify_env_ok : classify_env := mkClassifyEnv 42 "rec-new" 2000 None None.

(** [fetch] reaching a server that answers 200. *)
Definition fetch_ok (_ : string) : fetch_result := Reached 200.

(** A listing environment that answers every query with no rows. *)
Definition list_env_ok : list_env := mkListEnv tokens (fun _ => inr []) None.

Definition list_request (ps : list (string * string)) : request :=
  mkRequest "GET" (bearer "token-b") ps None.

(** [user-b] with 120 records. *)
Definition store_120 : store := mkStore (repeat record_of_b 120) [].


Definition run_classify (species : string) : response * store :=
  classify_breed classify_env_ok (obtain_by_fetch fetch_ok) (classify_request species)
    (mkStore [] []).

Definition run_list (ps : list (string * string)) : response * store :=
  get_animal_records list_env_ok (list_request ps) store_120.

(** * Properties *)

(** ** JSON equality *)

Lemma jval_eqb_refl : forall v, jval_eqb v v = true.
Proof.
  fix IH 1. intros [| b | n | s | xs | fs]; simpl.
  - reflexivity.
  - destruct b; reflexivity.
  - apply Z.eqb_refl.
  - apply String.eqb_refl.
  - induction xs as [| x xs IHxs]; [reflexivity |].
    rewrite IH. exact IHxs.
  - induction fs as [| [k x] fs IHfs]; [reflexivity |].
    rewrite String.eqb_refl, IH. exact IHfs.
Qed.

Lemma jval_eqb_eq : forall a b, jval_eqb a b = true -> a = b.
Proof.
  fix IH 1.
  intros [| x | x | x | xs | xs] [| y | y | y | ys | ys]; simpl; intro H;
    try discriminate.
  - reflexivity.
  - apply Bool.eqb_prop in H. congruence.
  - apply Z.eqb_eq in H. congruence.
  - apply String.eqb_eq in H. congruence.
  - f_equal. revert ys H.
    induction xs as [| x xs IHxs]; intros [| y ys] H; try discriminate;
      [reflexivity |].
    apply andb_prop in H as [H1 H2].
    f_equal; [apply IH; exact H1 | apply IHxs; exact H2].
  - f_equal. revert ys H.
    induction xs as [| [k x] xs IHxs]; intros [| [k' y] ys] H; try discriminate;
      [reflexivity |].
    apply andb_prop in H as [H1 H2]. apply andb_prop in H1 as [Hk Hv].
    apply String.eqb_eq in Hk. subst k'.
    f_equal; [f_equal; apply IH; exact Hv | apply IHxs; exact H2].
Qed.

(** ** Running a handler to its end *)

(** Case analysis on every [match] of an unfolded handler run, discarding
    the impossible equations between results. *)
Ltac split_matches :=
  repeat match goal with
  | H : (_, _) = (_, _) |- _ => injection H; clear H; intros; subst
  | H : inl _ = inr _ |- _ => discriminate H
  | H : inr _ = inl _ |- _ => discriminate H
  | H : inl _ = inl _ |- _ => injection H; clear H; intros; subst
  | H : inr _ = inr _ |- _ => injection H; clear H; intros; subst
  | H : None = Some _ |- _ => discriminate H
  | H : Some _ = None |- _ => discriminate H
  | H : Some _ = Some _ |- _ => injection H; clear H; intros; subst
  | H : context [match ?x with _ => _ end] |- _ =>
      let E := fresh "E" in destruct x eqn:E
  | |- context [match ?x with _ => _ end] =>
      let E := fresh "E" in destruct x eqn:E
  end.

Ltac unfold_classify :=
  unfold classify_breed, run_handler, classify_body, bind, lift, ret, db_upsert,
    db_insert_log, req_json, destructure; cbv zeta.

Lemma classify_status_cases env obtain req s :
  let st := status (fst (classify_breed env obtain req s)) in
  st = 200%Z \/ st = 400%Z \/ st = 500%Z.
Proof.
  unfold_classify. split_matches; simpl; auto.
Qed.

(** What a successful classify response tells about the run behind it. *)
Lemma classify_ok_inv env obtain req s resp s' rid preds top t :
  classify_breed env obtain req s = (resp, s') ->
  body resp = ClassifyOk rid preds top t ->
  exists fs url,
    req_body req = Some (JObj fs) /\
    http_image_url (prop "image_url" fs) = inr url /\
    obtain url = inr tt /\
    preds = mock_predictions (prop "animal_type" fs) /\
    nth_error preds 0 = Some top /\
    t = elapsed_ms env /\
    upsert_error env = None /\
    (let row := mkUpsertRow (defined (prop "user_id" fs)) (defined (prop "animal_id" fs))
                  (defined (prop "animal_type" fs)) (breed top) (confidence top) url
                  (JStr "pending") in
     let up := upsert_on_conflict (fresh_record_id env) (now_ts env) row
                 (animal_records s) in
     rid = id (snd up) /\ animal_records s' = fst up).
Proof.
  unfold_classify. intros H Hb.
  split_matches; simpl in *; try discriminate.
  all: injection Hb; intros; subst; exists fs, s0; destruct u; rewrite E9;
    unfold read_top in E6;
    destruct (mock_predictions (prop "animal_type" fs)); try discriminate;
    injection E6; intros; subst; repeat split; auto.
Qed.

(** The run of a classify call whose inputs are valid, whose image is
    obtained and whose upsert is accepted. *)
Lemma classify_breed_success env obtain req fs url species s :
  String.eqb (method req) "OPTIONS" = false ->
  req_body req = Some (JObj fs) ->
  prop "image_url" fs = Some (JStr url) ->
  String.prefix "http" url = true ->
  truthy (prop "animal_id" fs) = true ->
  truthy (prop "user_id" fs) = true ->
  prop "animal_type" fs = Some (JStr species) ->
  species = "cattle" \/ species = "buffalo" ->
  obtain url = inr tt ->
  upsert_error env = None ->
  let preds := mock_predictions (Some (JStr species)) in
  exists top,
    nth_error preds 0 = Some top /\
    (let row := mkUpsertRow (defined (prop "user_id" fs)) (defined (prop "animal_id" fs))
                  (JStr species) (breed top) (confidence top) url (JStr "pending") in
     let up := upsert_on_conflict (fresh_record_id env) (now_ts env) row
                 (animal_records s) in
     classify_breed env obtain req s =
       (mkResponse 200 (ClassifyOk (id (snd up)) preds top (elapsed_ms env)),
        mkStore (fst up)
          match log_insert_error env with
          | Some _ => breed_predictions s
          | None => (breed_predictions s
                      ++ [mkPredictionLog (id (snd up)) url preds "resnet-50-v1.0"
                            (elapsed_ms env)])%list
          end)).
Proof.
  intros Hm Hb Hu Hp Ha Hus Ht Hat Ho He. cbv zeta.
  assert (Hut : truthy (Some (JStr url)) = true).
  { destruct url; [discriminate | reflexivity]. }
  assert (Hh : http_image_url (Some (JStr url)) = inr url).
  { unfold http_image_url. rewrite Hut. simpl. rewrite Hp. reflexivity. }
  destruct Hat as [-> | ->]; eexists; split; try reflexivity;
    unfold_classify; rewrite Hm, Hb, Hu, Ht, Hut, Ha, Hus; simpl;
    rewrite Hh, Ho, He; simpl;
    destruct (upsert_on_conflict _ _ _ _); simpl;
    destruct (log_insert_error env); reflexivity.
Qed.

(** ** The upsert keyed by (animal_id, user_id) *)

Lemma upsert_on_conflict_spec rid now row rs :
  let up := upsert_on_conflict rid now row rs in
  In (snd up) (fst up) /\
  user_id (snd up) = row_user_id row /\
  animal_id (snd up) = row_animal_id row /\
  predicted_breed (snd up) = Some (row_predicted_breed row) /\
  confidence_score (snd up) = Some (row_confidence_score row) /\
  verification_status (snd up) = row_verification_status row /\
  (find (same_key row) rs = None -> id (snd up) = rid) /\
  (forall r, In r (fst up) -> same_key row r = true ->
     predicted_breed r = Some (row_predicted_breed row) /\
     confidence_score r = Some (row_confidence_score row)).
Proof.
  unfold upsert_on_conflict.
  destruct (find (same_key row) rs) as [r0 |] eqn:F; simpl.
  - apply find_some in F as [Hin Hk].
    assert (Hall : forall r,
      In r (map (fun r' => if same_key row r' then merge_row row r' else r') rs) ->
      same_key row r = true ->
      predicted_breed r = Some (row_predicted_breed row) /\
      confidence_score r = Some (row_confidence_score row)).
    { intros r Hr Hrk. apply in_map_iff in Hr as [x [<- _]].
      destruct (same_key row x) eqn:Hx; [split; reflexivity | congruence]. }
    repeat split; try reflexivity; try discriminate; try (apply Hall; assumption).
    apply in_map_iff. exists r0. rewrite Hk. auto.
  - assert (Hall : forall r, In r (rs ++ [new_row rid now row])%list ->
      same_key row r = true ->
      predicted_breed r = Some (row_predicted_breed row) /\
      confidence_score r = Some (row_confidence_score row)).
    { intros r Hr Hrk. apply in_app_or in Hr as [Hr | [<- | []]].
      - rewrite (find_none _ _ F r Hr) in Hrk. discriminate.
      - split; reflexivity. }
    repeat split; try reflexivity; try (apply Hall; assumption).
    apply in_or_app. right. left. reflexivity.
Qed.

Lemma same_key_intro row r :
  animal_id r = row_animal_id row -> user_id r = row_user_id row ->
  same_key row r = true.
Proof.
  intros Ha Hu. unfold same_key. rewrite Ha, Hu, !jval_eqb_refl. reflexivity.
Qed.

Lemma same_key_elim row r :
  same_key row r = true ->
  animal_id r = row_animal_id row /\ user_id r = row_user_id row.
Proof.
  unfold same_key. intro H. apply andb_prop in H as [Ha Hu].
  split; apply jval_eqb_eq; assumption.
Qed.

(** ** Classification gateway *)

(** C1. A classify call for species [cattle] whose image is obtained and
    whose upsert is accepted leaves, for its (animal_id, user_id), a record
    with predicted_breed [gir] and confidence_score 0.85, the head of the
    ranked list; when no record had that key before, the record is the newly
    created one and its verification_status is [pending]. *)
Theorem classify_cattle_records_top_prediction env obtain req fs url aid uid s resp s' :
  String.eqb (method req) "OPTIONS" = false ->
  req_body req = Some (JObj fs) ->
  prop "image_url" fs = Some (JStr url) ->
  String.prefix "http" url = true ->
  prop "animal_id" fs = Some aid -> truthy (Some aid) = true ->
  prop "user_id" fs = Some uid -> truthy (Some uid) = true ->
  prop "animal_type" fs = Some (JStr "cattle") ->
  obtain url = inr tt ->
  upsert_error env = None ->
  classify_breed env obtain req s = (resp, s') ->
  (forall r, In r (animal_records s') -> animal_id r = aid -> user_id r = uid ->
     predicted_breed r = Some "gir" /\ confidence_score r = Some 0.85%Q) /\
  (exists r, In r (animal_records s') /\ animal_id r = aid /\ user_id r = uid /\
     predicted_breed r = Some "gir" /\ confidence_score r = Some 0.85%Q /\
     ((forall r0, In r0 (animal_records s) -> ~ (animal_id r0 = aid /\ user_id r0 = uid)) ->
      id r = fresh_record_id env /\ verification_status r = JStr "pending")).
Proof.
  intros Hm Hb Hu Hp Ha Hat Hus Hust Ht Ho He Hrun.
  assert (Ha' : truthy (prop "animal_id" fs) = true) by (rewrite Ha; exact Hat).
  assert (Hus' : truthy (prop "user_id" fs) = true) by (rewrite Hus; exact Hust).
  destruct (classify_breed_success env obtain req fs url "cattle" s
              Hm Hb Hu Hp Ha' Hus' Ht (or_introl eq_refl) Ho He) as [top [Htop Heq]].
  simpl in Htop. injection Htop as <-.
  cbv zeta in Heq. rewrite Hrun in Heq. injection Heq as _ ->.
  rewrite Ha, Hus in *. cbn [defined animal_records] in *.
  set (row := mkUpsertRow uid aid (JStr "cattle") "gir" 0.85 url (JStr "pending")).
  destruct (upsert_on_conflict_spec (fresh_record_id env) (now_ts env) row
              (animal_records s)) as [Hin [Hru [Hra [Hrp [Hrc [Hrv [Hnew Hall]]]]]]].
  split.
  - intros r Hr Hra' Hru'. apply (Hall r Hr). apply same_key_intro; assumption.
  - exists (snd (upsert_on_conflict (fresh_record_id env) (now_ts env) row
                   (animal_records s))).
    repeat split; try assumption.
    apply Hnew.
    destruct (find (same_key row) (animal_records s)) as [r1 |] eqn:F;
      [| reflexivity].
    apply find_some in F as [Hin0 Hk]. apply same_key_elim in Hk.
    exfalso.
    match goal with Hn : forall _, In _ _ -> ~ _ |- _ => exact (Hn r1 Hin0 Hk) end.
Qed.

(** C5. Whether the prediction-log insert fails or not changes neither the
    response of a classify call nor the stored animal records: the success
    payload (record identity, full ranked list, top prediction, processing
    time) is returned all the same. *)
Theorem classify_log_failure_invisible env obtain req s msg :
  fst (classify_breed (with_log_error env (Some msg)) obtain req s)
  = fst (classify_breed (with_log_error env None) obtain req s) /\
  animal_records (snd (classify_breed (with_log_error env (Some msg)) obtain req s))
  = animal_records (snd (classify_breed (with_log_error env None) obtain req s)).
Proof.
  unfold_classify. unfold with_log_error. simpl.
  split_matches; simpl; auto.
Qed.

(** C6. A classify request whose object body lacks any of the four inputs
    (image_url, animal_id, user_id, animal_type; a missing property is
    [undefined], which is falsy, as are null, "" and 0) is answered with a
    400 validation error, and the store (animal records and prediction log)
    is left as it was: no upsert, no log insert. *)
Theorem classify_missing_input_rejected env obtain req fs s :
  String.eqb (method req) "OPTIONS" = false ->
  req_body req = Some (JObj fs) ->
  truthy (prop "image_url" fs) = false \/ truthy (prop "animal_id" fs) = false \/
  truthy (prop "user_id" fs) = false \/ truthy (prop "animal_type" fs) = false ->
  classify_breed env obtain req s =
    (err 400 "Missing required fields: image_url, animal_id, user_id, animal_type" None, s).
Proof.
  intros Hm Hb Hmiss.
  assert (Hor : negb (truthy (prop "image_url" fs)) || negb (truthy (prop "animal_id" fs))
                || negb (truthy (prop "user_id" fs)) || negb (truthy (prop "animal_type" fs))
                = true).
  { destruct Hmiss as [H | [H | [H | H]]]; rewrite H; simpl;
      rewrite ?orb_true_r; reflexivity. }
  unfold_classify. rewrite Hm, Hb. simpl. rewrite Hor. reflexivity.
Qed.

(** C7. Whenever a classify call succeeds, the ranked list it returns is
    non-empty and its confidences never increase from one entry to the
    next. *)
Theorem classify_predictions_ranked env obtain req s resp s' rid preds top t :
  classify_breed env obtain req s = (resp, s') ->
  body resp = ClassifyOk rid preds top t ->
  preds <> [] /\ conf_nonincreasing preds = true.
Proof.
  intros Hrun Hok.
  destruct (classify_ok_inv env obtain req s resp s' rid preds top t Hrun Hok)
    as [fs [url [_ [_ [_ [Hp [Htop _]]]]]]].
  split.
  - intros ->. discriminate.
  - rewrite Hp. unfold mock_predictions.
    destruct (strict_eq_str _ "cattle"); [reflexivity |].
    destruct (strict_eq_str _ "buffalo"); reflexivity.
Qed.

(** C9. The classify handler checks no credential: requests that differ
    only in their headers (the Authorization header among them) give the same
    response and the same store; no classify response has status 401; and a
    successful call leaves a record, the one whose identity it returns, owned
    by the user_id of the request body, whoever sent it. *)
Theorem classify_no_credential_check :
  (forall env obtain m h1 h2 q b s,
     classify_breed env obtain (mkRequest m h1 q b) s
     = classify_breed env obtain (mkRequest m h2 q b) s) /\
  (forall env obtain req s, status (fst (classify_breed env obtain req s)) <> 401%Z) /\
  (forall env obtain req s resp s' rid preds top t fs uid,
     classify_breed env obtain req s = (resp, s') ->
     body resp = ClassifyOk rid preds top t ->
     req_body req = Some (JObj fs) ->
     prop "user_id" fs = Some uid ->
     exists r, In r (animal_records s') /\ id r = rid /\ user_id r = uid).
Proof.
  split; [| split].
  - intros. reflexivity.
  - intros env obtain req s.
    destruct (classify_status_cases env obtain req s) as [H | [H | H]];
      rewrite H; discriminate.
  - intros env obtain req s resp s' rid preds top t fs uid Hrun Hok Hb Hu.
    destruct (classify_ok_inv env obtain req s resp s' rid preds top t Hrun Hok)
      as [fs' [url [Hb' [_ [_ [_ [_ [_ [_ [Hrid Hrs]]]]]]]]]].
    rewrite Hb in Hb'. injection Hb' as <-. rewrite Hu in Hrid, Hrs.
    cbn [defined] in Hrid, Hrs.
    match type of Hrid with
    | rid = id (snd (upsert_on_conflict ?a ?b ?row ?rs)) =>
        destruct (upsert_on_conflict_spec a b row rs) as [Hin [Hru _]]
    end.
    eexists. rewrite Hrs. split; [exact Hin | split; [symmetry; exact Hrid | exact Hru]].
Qed.

(** C10. A classify request with the four inputs present but a species
    other than [cattle] or [buffalo] gets an empty prediction list, on which
    reading the breed of the head element throws a TypeError; the call is
    answered with a 500 internal error (not a 400) and neither upserts a
    record nor inserts a prediction log: whenever the image is obtained the
    error is that TypeError, and otherwise the earlier image failure. *)
Theorem classify_unknown_species_internal_error env obtain req fs s :
  String.eqb (method req) "OPTIONS" = false ->
  req_body req = Some (JObj fs) ->
  truthy (prop "image_url" fs) = true -> truthy (prop "animal_id" fs) = true ->
  truthy (prop "user_id" fs) = true -> truthy (prop "animal_type" fs) = true ->
  prop "animal_type" fs <> Some (JStr "cattle") ->
  prop "animal_type" fs <> Some (JStr "buffalo") ->
  mock_predictions (prop "animal_type" fs) = [] /\
  read_top (nth_error (mock_predictions (prop "animal_type" fs)) 0)
    = inl (TypeError "Cannot read properties of undefined (reading 'breed')") /\
  status (fst (classify_breed env obtain req s)) = 500%Z /\
  snd (classify_breed env obtain req s) = s /\
  (forall url, http_image_url (prop "image_url" fs) = inr url -> obtain url = inr tt ->
     fst (classify_breed env obtain req s)
     = internal_error (TypeError "Cannot read properties of undefined (reading 'breed')")).
Proof.
  intros Hm Hb Hi Ha Hu Ht Hc Hbu.
  assert (Hnil : mock_predictions (prop "animal_type" fs) = []).
  { unfold mock_predictions, strict_eq_str.
    destruct (prop "animal_type" fs) as [[| | | x | |] |]; try reflexivity.
    destruct (String.eqb_spec x "cattle"); [subst; congruence |].
    destruct (String.eqb_spec x "buffalo"); [subst; congruence | reflexivity]. }
  assert (Hrun : classify_breed env obtain req s =
    (internal_error
       match http_image_url (prop "image_url" fs) with
       | inl e => e
       | inr url =>
           match obtain url with
           | inl e => e
           | inr _ => TypeError "Cannot read properties of undefined (reading 'breed')"
           end
       end, s)).
  { unfold_classify. rewrite Hm, Hb. simpl. rewrite Hi, Ha, Hu, Ht. simpl.
    destruct (http_image_url (prop "image_url" fs)); [reflexivity |].
    destruct (obtain s0); [reflexivity |].
    rewrite Hnil. reflexivity. }
  rewrite Hrun, Hnil. repeat split.
  intros url Hh Ho. rewrite Hh, Ho. reflexivity.
Qed.

(** ** Record listing *)

Lemma authenticate_early g req r :
  authenticate g req = inl r -> exists msg, r = err 401 msg None.
Proof.
  unfold authenticate. intro H.
  destruct (header_get _ _); [| injection H as <-; eauto].
  destruct (String.eqb _ _); [injection H as <-; eauto |].
  destruct (g _); [discriminate | injection H as <-; eauto].
Qed.

Lemma list_ok_inv env req s resp s' recs pg :
  get_animal_records env req s = (resp, s') ->
  body resp = ListOk recs pg ->
  let ps := query_params req in
  s' = s /\
  exists uid,
    authenticate (list_get_user env) req = inr uid /\
    answer_records env (list_query uid ps) = inr recs /\
    pg = mkPagination (record_count env uid s) (page_limit ps) (page_offset ps)
           (js_gt (Int (record_count env uid s))
                  (js_add (page_offset ps) (page_limit ps))).
Proof.
  unfold get_animal_records, run_handler, list_body. intros Hrun Hok.
  destruct (String.eqb (method req) "OPTIONS");
    [injection Hrun; intros; subst; discriminate |].
  destruct (authenticate (list_get_user env) req) as [early | uid] eqn:Hauth.
  - apply authenticate_early in Hauth as [msg ->].
    injection Hrun; intros; subst; discriminate.
  - destruct (answer_records env _) as [msg | records] eqn:Hans;
      injection Hrun; intros; subst; simpl in Hok; try discriminate.
    injection Hok; intros; subst. split; [reflexivity |].
    exists uid. split; [reflexivity | split; [exact Hans | reflexivity]].
Qed.

Lemma page_limit_at_most_100 ps n : page_limit ps = Int n -> (n <= 100)%Z.
Proof.
  unfold page_limit, js_min. destruct (parseInt _); [| discriminate].
  intro H. injection H as <-. lia.
Qed.

(** C2. A successful listing reports [has_more] as [total > offset + limit]
    over the total, page size and offset it reports: with integers T, L, O it
    is [T > O + L] (T = 120, L = 50: true at O = 50, false at O = 70), and
    when the count query succeeds T is the number of the caller's records. *)
Theorem list_has_more_flag env req s resp s' recs pg :
  get_animal_records env req s = (resp, s') ->
  body resp = ListOk recs pg ->
  has_more pg = js_gt (Int (total pg)) (js_add (p_offset pg) (p_limit pg)) /\
  (forall T L O, total pg = T -> p_limit pg = Int L -> p_offset pg = Int O ->
     has_more pg = (T >? O + L)%Z) /\
  (total pg = 120%Z -> p_limit pg = Int 50 -> p_offset pg = Int 50 -> has_more pg = true) /\
  (total pg = 120%Z -> p_limit pg = Int 50 -> p_offset pg = Int 70 -> has_more pg = false) /\
  (count_error env = None ->
     exists uid, authenticate (list_get_user env) req = inr uid /\
       total pg = Z.of_nat (length (filter (owned_by uid) (animal_records s)))).
Proof.
  intros Hrun Hok.
  destruct (list_ok_inv env req s resp s' recs pg Hrun Hok) as [_ [uid [Hauth [_ Hpg]]]].
  assert (Hflag : has_more pg = js_gt (Int (total pg)) (js_add (p_offset pg) (p_limit pg)))
    by (rewrite Hpg; reflexivity).
  split; [exact Hflag |]. split; [| split; [| split]].
  - intros T L O HT HL HO. rewrite Hflag, HT, HL, HO. reflexivity.
  - intros HT HL HO. rewrite Hflag, HT, HL, HO. reflexivity.
  - intros HT HL HO. rewrite Hflag, HT, HL, HO. reflexivity.
  - intro Hc. exists uid. split; [exact Hauth |].
    rewrite Hpg. simpl. unfold record_count. rewrite Hc. reflexivity.
Qed.

(** C8. A successful listing uses one page size for the query range and for
    the pagination object it echoes: 50 when no limit parameter is given,
    never more than 100 whatever limit is given (a limit that does not parse
    gives NaN, which exceeds nothing); the offset is 0 when none is given. *)
Theorem list_page_size_clamped env req s resp s' recs pg :
  get_animal_records env req s = (resp, s') ->
  body resp = ListOk recs pg ->
  let ps := query_params req in
  p_limit pg = page_limit ps /\ p_offset pg = page_offset ps /\
  (exists uid,
     answer_records env (list_query uid ps) = inr recs /\
     q_range_from (list_query uid ps) = p_offset pg /\
     q_range_to (list_query uid ps) = js_sub (js_add (p_offset pg) (p_limit pg)) (Int 1)) /\
  (param_get "limit" ps = None -> p_limit pg = Int 50) /\
  (forall n, p_limit pg = Int n -> (n <= 100)%Z) /\
  js_gt (p_limit pg) (Int 100) = false /\
  (param_get "offset" ps = None -> p_offset pg = Int 0).
Proof.
  intros Hrun Hok ps.
  destruct (list_ok_inv env req s resp s' recs pg Hrun Hok) as [_ [uid [_ [Hans Hpg]]]].
  fold ps in Hans, Hpg. rewrite Hpg. cbn [p_limit p_offset].
  repeat split.
  - exists uid. repeat split; assumption.
  - intro Hn. unfold page_limit, param_or. rewrite Hn. reflexivity.
  - apply page_limit_at_most_100.
  - destruct (page_limit ps) as [n |] eqn:Hl; [| reflexivity].
    apply page_limit_at_most_100 in Hl. simpl. rewrite Z.gtb_ltb. apply Z.ltb_ge. exact Hl.
  - intro Hn. unfold page_offset, param_or. rewrite Hn. reflexivity.
Qed.

(** ** Record update *)

Ltac unfold_update :=
  unfold run_handler, update_body, bind, lift, ret, req_json, destructure,
    db_update_single; cbv zeta.

(** The update handler has no run that reaches its 404 branch: [.single()]
    turns an update that matched no row into an error, answered with 500. *)
Lemma update_status_never_404 env req s :
  status (fst (update_animal_record env req s)) <> 404%Z.
Proof.
  unfold update_animal_record.
  destruct (String.eqb (method req) "OPTIONS"); [discriminate |].
  unfold_update.
  destruct (authenticate (update_get_user env) req) as [early | uid] eqn:Hauth.
  - apply authenticate_early in Hauth as [msg ->]. discriminate.
  - split_matches; simpl; discriminate.
Qed.

(** Whatever an update call on another user's record does, it leaves the
    store as it was, and it answers with 500. *)
Lemma update_foreign_record_unchanged env req s uid fs rid :
  String.eqb (method req) "OPTIONS" = false ->
  authenticate (update_get_user env) req = inr uid ->
  req_body req = Some (JObj fs) ->
  prop "record_id" fs = Some (JStr rid) -> rid <> "" ->
  (forall r, In r (animal_records s) -> id r = rid -> user_id r <> JStr uid) ->
  snd (update_animal_record env req s) = s /\
  status (fst (update_animal_record env req s)) = 500%Z.
Proof.
  intros Hm Hauth Hb Hr Hne Hforeign.
  assert (Hnone : filter (update_filter (JStr rid) uid) (animal_records s) = []).
  { destruct (filter _ _) as [| r rest] eqn:F; [reflexivity | exfalso].
    assert (Hin : In r (filter (update_filter (JStr rid) uid) (animal_records s)))
      by (rewrite F; left; reflexivity).
    apply filter_In in Hin as [Hin Hf].
    unfold update_filter, owned_by in Hf. apply andb_prop in Hf as [Hid Hown].
    apply jval_eqb_eq in Hid, Hown. injection Hid as Hid.
    exact (Hforeign r Hin (eq_sym Hid) Hown). }
  unfold update_animal_record. rewrite Hm. unfold_update. rewrite Hauth, Hb.
  simpl. rewrite Hr. simpl.
  split_matches; simpl in *; try (rewrite Hnone in *; discriminate); auto.
  exfalso. apply Hne. destruct (String.eqb_spec rid ""); [assumption | discriminate].
Qed.

(** C3. [user-a] updating the notes of [user-b]'s record [rec-b]: the filter
    on the caller's rows keeps no row, [.single()] reports that as an error,
    and the handler answers 500 "Failed to update animal record" from its
    error branch instead of the 404 "Record not found or access denied" it
    keeps for this case; the record is left unchanged. *)
Theorem update_foreign_record_answers_500 :
  update_animal_record update_env_ok req_edit_foreign store_of_b =
    (err 500 "Failed to update animal record"
       (Some "JSON object requested, multiple (or no) rows returned"),
     store_of_b).
Proof. vm_compute. reflexivity. Qed.

(** C4. An update call that sets verification_status to [verified] or
    [rejected] and succeeds stores, and returns, the record with that status
    and with verified_by the authenticated caller; an update call that sets
    it to [pending] writes no verified_by: every record keeps the verified_by
    it had, whatever the outcome of the call. *)
Theorem update_verifier_stamp :
  (forall env req s resp s' uid fs st rec,
     authenticate (update_get_user env) req = inr uid ->
     req_body req = Some (JObj fs) ->
     prop "verification_status" fs = Some (JStr st) ->
     st = "verified" \/ st = "rejected" ->
     update_animal_record env req s = (resp, s') ->
     body resp = UpdateOk rec ->
     In rec (animal_records s') /\ verification_status rec = JStr st /\
     verified_by rec = Some uid) /\
  (forall env req s fs,
     req_body req = Some (JObj fs) ->
     prop "verification_status" fs = Some (JStr "pending") ->
     map verified_by (animal_records (snd (update_animal_record env req s)))
     = map verified_by (animal_records s)).
Proof.
  split.
  - intros env req s resp s' uid fs st rec Hauth Hb Hvs Hst Hrun Hok.
    unfold update_animal_record in Hrun.
    destruct (String.eqb (method req) "OPTIONS").
    { injection Hrun; intros; subst; discriminate. }
    unfold run_handler, update_body, bind, lift, ret, req_json, destructure,
      db_update_single in Hrun; cbv zeta in Hrun.
    rewrite Hauth, Hb in Hrun. simpl in Hrun. rewrite Hvs in Hrun.
    destruct Hst as [-> | ->]; simpl in Hrun;
      split_matches; simpl in *; try discriminate.
    all: injection Hok; intros; subst.
    all: match goal with
         | E : filter ?f ?rs = [?x] |- _ =>
             assert (Hin : In x (filter f rs)) by (rewrite E; left; reflexivity);
             apply filter_In in Hin as [Hin Hf];
             split; [apply in_map_iff; exists x; rewrite Hf; auto | split; reflexivity]
         end.
  - intros env req s fs Hb Hvs.
    unfold update_animal_record.
    destruct (String.eqb (method req) "OPTIONS"); [reflexivity |].
    unfold_update.
    destruct (authenticate (update_get_user env) req) as [early | uid];
      [reflexivity |].
    rewrite Hb. simpl. rewrite Hvs. simpl.
    split_matches; simpl; try reflexivity.
    rewrite map_map. apply map_ext. intro r.
    destruct (update_filter _ _ r); reflexivity.
Qed.

(** ** Witnesses: the theorems applied at concrete inputs *)

Lemma classify_cattle_records_top_prediction_witness :
  (forall r, In r (animal_records (snd (run_classify "cattle"))) ->
     animal_id r = JStr "A-17" -> user_id r = JStr "user-a" ->
     predicted_breed r = Some "gir" /\ confidence_score r = Some 0.85%Q) /\
  (exists r, In r (animal_records (snd (run_classify "cattle"))) /\
     animal_id r = JStr "A-17" /\ user_id r = JStr "user-a" /\
     predicted_breed r = Some "gir" /\ confidence_score r = Some 0.85%Q /\
     ((forall r0, In r0 (animal_records (mkStore [] [])) ->
         ~ (animal_id r0 = JStr "A-17" /\ user_id r0 = JStr "user-a")) ->
      id r = fresh_record_id classify_env_ok /\ verification_status r = JStr "pending")).
Proof.
  apply (classify_cattle_records_top_prediction classify_env_ok (obtain_by_fetch fetch_ok)
           (classify_request "cattle") (classify_fields "cattle") cattle_url
           (JStr "A-17") (JStr "user-a") (mkStore [] [])
           (fst (run_classify "cattle")) (snd (run_classify "cattle")));
    vm_compute; reflexivity.
Defined.

Lemma list_has_more_flag_witness :
  let pg := mkPagination 120 (Int 50) (Int 70) false in
  has_more pg = js_gt (Int (total pg)) (js_add (p_offset pg) (p_limit pg)) /\
  (forall T L O, total pg = T -> p_limit pg = Int L -> p_offset pg = Int O ->
     has_more pg = (T >? O + L)%Z) /\
  (total pg = 120%Z -> p_limit pg = Int 50 -> p_offset pg = Int 50 -> has_more pg = true) /\
  (total pg = 120%Z -> p_limit pg = Int 50 -> p_offset pg = Int 70 -> has_more pg = false) /\
  (count_error list_env_ok = None ->
     exists uid, authenticate (list_get_user list_env_ok) (list_request [("limit", "50"); ("offset", "70")]) = inr uid /\
       total pg = Z.of_nat (length (filter (owned_by uid) (animal_records store_120)))).
Proof.
  apply (list_has_more_flag list_env_ok (list_request [("limit", "50"); ("offset", "70")])
           store_120 (fst (run_list [("limit", "50"); ("offset", "70")]))
           (snd (run_list [("limit", "50"); ("offset", "70")])) []);
    vm_compute; reflexivity.
Defined.

Lemma classify_missing_input_rejected_witness :
  classify_breed classify_env_ok (obtain_by_fetch fetch_ok)
    (mkRequest "POST" [] [] (Some (JObj [("image_url", JStr cattle_url);
                                         ("animal_id", JStr "A-17");
                                         ("animal_type", JStr "cattle")])))
    store_of_b =
  (err 400 "Missing required fields: image_url, animal_id, user_id, animal_type" None,
   store_of_b).
Proof.
  apply (classify_missing_input_rejected classify_env_ok (obtain_by_fetch fetch_ok) _
           [("image_url", JStr cattle_url); ("animal_id", JStr "A-17");
            ("animal_type", JStr "cattle")]).
  - reflexivity.
  - reflexivity.
  - right. right. left. reflexivity.
Defined.

Lemma classify_predictions_ranked_witness :
  mock_predictions (Some (JStr "buffalo")) <> [] /\
  conf_nonincreasing (mock_predictions (Some (JStr "buffalo"))) = true.
Proof.
  apply (classify_predictions_ranked classify_env_ok (obtain_by_fetch fetch_ok)
           (classify_request "buffalo") (mkStore [] [])
           (fst (run_classify "buffalo")) (snd (run_classify "buffalo"))
           "rec-new" (mock_predictions (Some (JStr "buffalo")))
           (mkPrediction "murrah" 0.78) 42%Z); vm_compute; reflexivity.
Defined.

Lemma list_page_size_clamped_witness :
  let ps := query_params (list_request []) in
  let pg := mkPagination 120 (Int 50) (Int 0) true in
  p_limit pg = page_limit ps /\ p_offset pg = page_offset ps /\
  (exists uid,
     answer_records list_env_ok (list_query uid ps) = inr [] /\
     q_range_from (list_query uid ps) = p_offset pg /\
     q_range_to (list_query uid ps) = js_sub (js_add (p_offset pg) (p_limit pg)) (Int 1)) /\
  (param_get "limit" ps = None -> p_limit pg = Int 50) /\
  (forall n, p_limit pg = Int n -> (n <= 100)%Z) /\
  js_gt (p_limit pg) (Int 100) = false /\
  (param_get "offset" ps = None -> p_offset pg = Int 0).
Proof.
  apply (list_page_size_clamped list_env_ok (list_request []) store_120
           (fst (run_list [])) (snd (run_list [])) []); vm_compute; reflexivity.
Defined.

Lemma classify_unknown_species_internal_error_witness :
  let fs := classify_fields "goat" in
  let run := classify_breed classify_env_ok (obtain_by_fetch fetch_ok)
               (classify_request "goat") store_of_b in
  mock_predictions (prop "animal_type" fs) = [] /\
  read_top (nth_error (mock_predictions (prop "animal_type" fs)) 0)
    = inl (TypeError "Cannot read properties of undefined (reading 'breed')") /\
  status (fst run) = 500%Z /\ snd run = store_of_b /\
  (forall url, http_image_url (prop "image_url" fs) = inr url ->
     obtain_by_fetch fetch_ok url = inr tt ->
     fst run = internal_error (TypeError "Cannot read properties of undefined (reading 'breed')")).
Proof.
  apply (classify_unknown_species_internal_error classify_env_ok (obtain_by_fetch fetch_ok)
           (classify_request "goat") (classify_fields "goat") store_of_b);
    try reflexivity; vm_compute; discriminate.
Defined.

Lemma classify_no_credential_check_witness :
  exists r, In r (animal_records (snd (run_classify "cattle"))) /\
    id r = "rec-new" /\ user_id r = JStr "user-a".
Proof.
  apply (proj2 (proj2 classify_no_credential_check) classify_env_ok
           (obtain_by_fetch fetch_ok) (classify_request "cattle") (mkStore [] [])
           (fst (run_classify "cattle")) (snd (run_classify "cattle")) "rec-new"
           (mock_predictions (Some (JStr "cattle"))) (mkPrediction "gir" 0.85) 42%Z
           (classify_fields "cattle") (JStr "user-a")); vm_compute; reflexivity.
Defined.

Lemma update_verifier_stamp_witness :
  let run := update_animal_record update_env_ok (req_set_status "token-b" "verified")
               store_of_b in
  (exists rec, body (fst run) = UpdateOk rec /\
     In rec (animal_records (snd run)) /\ verification_status rec = JStr "verified" /\
     verified_by rec = Some "user-b") /\
  map verified_by (animal_records (snd (update_animal_record update_env_ok
                                          (req_set_status "token-b" "pending") store_of_b)))
  = map verified_by (animal_records store_of_b).
Proof.
  intro run. split.
  - exists (apply_update (mkUpdateData None None (Some (JStr "verified")) None None None
                            (Some "user-b")) record_of_b).
    split; [vm_compute; reflexivity |].
    apply (proj1 update_verifier_stamp update_env_ok (req_set_status "token-b" "verified")
             store_of_b (fst run) (snd run) "user-b"
             [("record_id", JStr "rec-b"); ("verification_status", JStr "verified")]
             "verified");
      first [reflexivity | left; reflexivity | vm_compute; reflexivity].
  - apply (proj2 update_verifier_stamp update_env_ok (req_set_status "token-b" "pending")
             store_of_b [("record_id", JStr "rec-b"); ("verification_status", JStr "pending")]);
      reflexivity.
Defined.

(** * Further properties of the handlers and their callers *)

Lemma split_on_cons c s : exists w ws, split_on c s = w :: ws.
Proof.
  induction s as [| x r [w [ws IH]]]; simpl; [eauto |].
  rewrite IH. destruct (Ascii.eqb x c); eauto.
Qed.

Lemma split_on_sep c s : split_on c (String c s) = "" :: split_on c s.
Proof.
  simpl. destruct (split_on_cons c s) as [w [ws ->]]. rewrite Ascii.eqb_refl. reflexivity.
Qed.

Lemma split_on_one_app c a s :
  split_on c a = [a] -> split_on c (a ++ String c s) = a :: split_on c s.
Proof.
  induction a as [| x r IH]; intro H; simpl.
  - apply split_on_sep.
  - simpl in H. destruct (split_on_cons c r) as [w [ws E]]. rewrite E in H.
    destruct (Ascii.eqb x c) eqn:Ex; [discriminate |].
    injection H as Hw Hws. subst.
    rewrite (IH E). reflexivity.
Qed.

Lemma concat_split_on c d s :
  String.concat (String d EmptyString) (split_on c s) = subst_char c d s.
Proof.
  induction s as [| x r IH]; [reflexivity |].
  simpl. destruct (split_on_cons c r) as [w [ws E]]. rewrite E in *.
  destruct (Ascii.eqb x c) eqn:Ex.
  - simpl. rewrite <- IH. reflexivity.
  - rewrite <- IH. destruct ws; reflexivity.
Qed.

Lemma subst_char_same c s : subst_char c c s = s.
Proof.
  induction s as [| x r IH]; [reflexivity |].
  simpl. rewrite IH. destruct (Ascii.eqb_spec x c); subst; reflexivity.
Qed.

Lemma filter_nonempty_id ws :
  ~ In "" ws -> filter (fun w => negb (String.eqb w "")) ws = ws.
Proof.
  induction ws as [| w ws IH]; intro H; [reflexivity |].
  simpl. destruct (String.eqb_spec w ""); [subst; exfalso; apply H; left; reflexivity |].
  simpl. rewrite IH; [reflexivity |]. intro Hin. apply H. right. exact Hin.
Qed.

(** A storage URL path [/storage/v1/object/public/<bucket>/<path>], with a
    one-segment non-empty bucket and a path of non-empty segments, is read
    back by the storage variant of classify as that bucket and that object
    path. *)
Theorem storage_target_public_path bucket path :
  bucket <> "" -> split_on "/"%char bucket = [bucket] ->
  ~ In "" (split_on "/"%char path) ->
  storage_target ("/storage/v1/object/public/" ++ bucket ++ "/" ++ path)
  = Some (bucket, path).
Proof.
  intros Hne Hb Hp.
  assert (Hs : split_on "/"%char ("/storage/v1/object/public/" ++ bucket ++ "/" ++ path)
               = "" :: "storage" :: "v1" :: "object" :: "public" :: bucket
                    :: split_on "/"%char path).
  { change ("/storage/v1/object/public/" ++ bucket ++ "/" ++ path) with
      ("" ++ String "/" ("storage" ++ String "/" ("v1" ++ String "/"
        ("object" ++ String "/" ("public" ++ String "/" (bucket ++ String "/" path)))))).
    rewrite !split_on_one_app by (assumption || reflexivity). reflexivity. }
  unfold storage_target. rewrite Hs. simpl.
  destruct (String.eqb_spec bucket ""); [contradiction |]. simpl.
  rewrite filter_nonempty_id by exact Hp. simpl.
  destruct (String.eqb_spec bucket ""); [contradiction |].
  rewrite concat_split_on, subst_char_same. reflexivity.
Qed.


Lemma to_lower_to_upper c : to_lower (to_upper c) = to_lower c.
Proof. destruct c as [[] [] [] [] [] [] [] []]; reflexivity. Qed.


Lemma lowercase_app a b : lowercase (a ++ b) = lowercase a ++ lowercase b.
Proof. induction a as [| c r IH]; simpl; [reflexivity |]. rewrite IH. reflexivity. Qed.





Lemma lowercase_concat ws :
  lowercase (String.concat " " ws) = String.concat " " (map lowercase ws).
Proof.
  induction ws as [| w ws IH]; [reflexivity |].
  destruct ws as [| w' ws'].
  - reflexivity.
  - change (String.concat " " (w :: w' :: ws')) with (w ++ " " ++ String.concat " " (w' :: ws')).
    change (String.concat " " (map lowercase (w :: w' :: ws')))
      with (lowercase w ++ " " ++ String.concat " " (map lowercase (w' :: ws'))).
    rewrite lowercase_app, <- IH. reflexivity.
Qed.

Lemma lowercase_capitalize w : lowercase (capitalize w) = lowercase w.
Proof. destruct w as [| c r]; simpl; [reflexivity |]. rewrite to_lower_to_upper. reflexivity. Qed.

(** [formatBreedName] puts a space where the breed name has an underscore
    and changes nothing else but the case of letters. *)
Theorem formatBreedName_spaces breed :
  lowercase (formatBreedName breed) = lowercase (subst_char "_" " " breed).
Proof.
  unfold formatBreedName. rewrite lowercase_concat, map_map.
  rewrite (map_ext _ _ lowercase_capitalize), <- lowercase_concat.
  rewrite (concat_split_on "_" " "). reflexivity.
Qed.



Lemma same_key_merge row r : same_key row (merge_row row r) = true.
Proof. unfold same_key, merge_row. simpl. rewrite !jval_eqb_refl. reflexivity. Qed.

Lemma same_key_new rid now row : same_key row (new_row rid now row) = true.
Proof. unfold same_key, new_row. simpl. rewrite !jval_eqb_refl. reflexivity. Qed.

Lemma key_rows_merge row rs :
  length (key_rows row (map (fun r' => if same_key row r' then merge_row row r' else r') rs))
  = length (key_rows row rs).
Proof.
  unfold key_rows. induction rs as [| r rs IH]; [reflexivity |].
  simpl. destruct (same_key row r) eqn:Hr; simpl.
  - rewrite same_key_merge. simpl. rewrite IH. reflexivity.
  - rewrite Hr. exact IH.
Qed.

Lemma find_none_key_rows row rs : find (same_key row) rs = None -> key_rows row rs = [].
Proof.
  unfold key_rows. intro H. induction rs as [| r rs IH]; [reflexivity |].
  simpl in *. destruct (same_key row r); [discriminate | apply IH; exact H].
Qed.

Lemma upsert_on_conflict_length rid now row rs :
  length (fst (upsert_on_conflict rid now row rs))
  = (length rs + match find (same_key row) rs with Some _ => 0 | None => 1 end)%nat.
Proof.
  unfold upsert_on_conflict. destruct (find (same_key row) rs); simpl.
  - rewrite length_map. lia.
  - rewrite length_app. reflexivity.
Qed.

(** The upsert keyed by (animal_id, user_id) leaves max(1, n) rows with
    that key where there were n; the table keeps its size when a row had the
    key and grows by one row otherwise. *)
Theorem upsert_one_row_per_key rid now row rs :
  let up := upsert_on_conflict rid now row rs in
  length (key_rows row (fst up)) = Nat.max 1 (length (key_rows row rs)) /\
  (key_rows row rs <> [] -> length (fst up) = length rs) /\
  (key_rows row rs = [] -> length (fst up) = S (length rs)).
Proof.
  cbv zeta. rewrite upsert_on_conflict_length. unfold upsert_on_conflict.
  destruct (find (same_key row) rs) as [r0 |] eqn:F; simpl.
  - apply find_some in F as [Hin Hk].
    assert (Hne : key_rows row rs <> []).
    { unfold key_rows. intro E. assert (In r0 (filter (same_key row) rs))
        by (apply filter_In; auto). rewrite E in H. contradiction. }
    rewrite key_rows_merge. split; [| split].
    + destruct (key_rows row rs); [contradiction | simpl; lia].
    + intros _. lia.
    + intro E. contradiction.
  - assert (Hk : key_rows row rs = []) by (apply find_none_key_rows; exact F).
    rewrite Hk. unfold key_rows in *. rewrite filter_app, Hk. simpl. rewrite same_key_new.
    simpl. split; [reflexivity | split].
    + intro E. contradiction.
    + intros _. lia.
Qed.

Lemma classify_fail_or_ok env obtain req s :
  (exists rid preds top t,
     body (fst (classify_breed env obtain req s)) = ClassifyOk rid preds top t)
  \/ snd (classify_breed env obtain req s) = s.
Proof. unfold_classify. split_matches; simpl; eauto 6. Qed.

(** A classify call that does not answer with a success payload leaves the
    store, records and prediction log, as it was. *)
Theorem classify_failure_writes_nothing env obtain req s :
  (forall rid preds top t,
     body (fst (classify_breed env obtain req s)) <> ClassifyOk rid preds top t) ->
  snd (classify_breed env obtain req s) = s.
Proof.
  intro H. destruct (classify_fail_or_ok env obtain req s) as [[rid [preds [top [t Hok]]]] | E].
  - exfalso. exact (H rid preds top t Hok).
  - exact E.
Qed.

(** Sending a successful classify request again adds no animal record. *)
Theorem classify_repeat_keeps_record_count env obtain req s resp s' rid preds top t :
  classify_breed env obtain req s = (resp, s') ->
  body resp = ClassifyOk rid preds top t ->
  length (animal_records (snd (classify_breed env obtain req s')))
  = length (animal_records s').
Proof.
  intros Hrun Hok.
  destruct (classify_ok_inv env obtain req s resp s' rid preds top t Hrun Hok)
    as [fs [url [Hb [Hu [_ [Hp [Htop [_ [_ [_ Hrs]]]]]]]]]].
  destruct (classify_fail_or_ok env obtain req s') as [[rid2 [preds2 [top2 [t2 Hok2]]]] | E];
    [| rewrite E; reflexivity].
  destruct (classify_breed env obtain req s') as [resp2 s''] eqn:Hrun2.
  simpl in Hok2 |- *.
  destruct (classify_ok_inv env obtain req s' resp2 s'' rid2 preds2 top2 t2 Hrun2 Hok2)
    as [fs2 [url2 [Hb2 [Hu2 [_ [Hp2 [Htop2 [_ [_ [_ Hrs2]]]]]]]]]].
  rewrite Hb in Hb2. injection Hb2 as <-. rewrite Hu in Hu2. injection Hu2 as <-.
  rewrite <- Hp in Hp2. subst preds2. rewrite Htop in Htop2. injection Htop2 as <-.
  rewrite Hrs2, upsert_on_conflict_length.
  match goal with
  | |- context [find (same_key ?row) _] =>
      destruct (upsert_on_conflict_spec (fresh_record_id env) (now_ts env) row
                  (animal_records s)) as [Hin [Hru [Hra _]]];
      destruct (find (same_key row) (animal_records s')) as [r1 |] eqn:F; [lia |];
      exfalso; rewrite Hrs in F;
      pose proof (find_none _ _ F _ Hin) as Hf;
      rewrite same_key_intro in Hf by assumption; discriminate
  end.
Qed.

(** A successful classify call appends exactly one prediction log, carrying
    the returned record id, the image URL, the returned predictions and
    processing time, unless the log insert is rejected, in which case the log
    is unchanged. *)
Theorem classify_logs_prediction env obtain req s resp s' rid preds top t :
  classify_breed env obtain req s = (resp, s') ->
  body resp = ClassifyOk rid preds top t ->
  exists fs url,
    req_body req = Some (JObj fs) /\ http_image_url (prop "image_url" fs) = inr url /\
    breed_predictions s' =
      match log_insert_error env with
      | Some _ => breed_predictions s
      | None => (breed_predictions s
                  ++ [mkPredictionLog rid url preds "resnet-50-v1.0" t])%list
      end.
Proof.
  unfold_classify. intros Hrun Hok.
  split_matches; simpl in *; try discriminate.
  all: injection Hok; intros; subst; eauto 6.
Qed.

Lemma obtain_via_storage_cases p d f u :
  obtain_via_storage p d f u = inr tt \/ obtain_via_storage p d f u = obtain_by_fetch f u.
Proof.
  unfold obtain_via_storage.
  destruct (match p u with
            | Some path => match storage_target path with
                           | Some (b, o) => d b o | None => false end
            | None => false end); auto.
Qed.

Lemma classify_breed_obtain_ext env o1 o2 req s :
  (forall u, o1 u = o2 u) ->
  classify_breed env o1 req s = classify_breed env o2 req s.
Proof.
  intro H. unfold_classify. split_matches; try reflexivity; congruence.
Qed.

(** The storage variant of the image step succeeds whenever the plain fetch
    does and otherwise fails with the fetch's error; so when the fetch obtains
    every image, both classify variants answer and write alike. *)
Theorem classify_storage_variant_agrees env url_pathname download_ok fetch req s :
  (forall u, obtain_by_fetch fetch u = inr tt ->
     obtain_via_storage url_pathname download_ok fetch u = inr tt) /\
  (forall e u, obtain_via_storage url_pathname download_ok fetch u = inl e ->
     obtain_by_fetch fetch u = inl e) /\
  ((forall u, obtain_by_fetch fetch u = inr tt) ->
   classify_breed env (obtain_via_storage url_pathname download_ok fetch) req s
   = classify_breed env (obtain_by_fetch fetch) req s).
Proof.
  split; [| split].
  - intros u Hf. destruct (obtain_via_storage_cases url_pathname download_ok fetch u)
      as [E | E]; rewrite E; auto.
  - intros e u Hv. destruct (obtain_via_storage_cases url_pathname download_ok fetch u)
      as [E | E]; congruence.
  - intro Hall. apply classify_breed_obtain_ext. intro u.
    rewrite Hall. destruct (obtain_via_storage_cases url_pathname download_ok fetch u)
      as [E | E]; rewrite E; auto.
Qed.

(** The listing handler never reads the request body: requests that differ
    only in their body get the same answer, and with no query parameter a
    successful listing uses page size 50 and offset 0 whatever the body
    holds. *)
Theorem list_ignores_body env m h q b1 b2 s :
  get_animal_records env (mkRequest m h q b1) s = get_animal_records env (mkRequest m h q b2) s /\
  (forall b resp s' recs pg,
     get_animal_records env (mkRequest m h [] b) s = (resp, s') ->
     body resp = ListOk recs pg ->
     p_limit pg = Int 50 /\ p_offset pg = Int 0).
Proof.
  split; [reflexivity |].
  intros b resp s' recs pg Hrun Hok.
  destruct (list_ok_inv env _ s resp s' recs pg Hrun Hok) as [_ [uid [_ [_ Hpg]]]].
  rewrite Hpg. split; reflexivity.
Qed.

(** The listing handler never changes the store. *)
Theorem list_never_writes env req s : snd (get_animal_records env req s) = s.
Proof.
  unfold get_animal_records, run_handler, list_body.
  destruct (String.eqb _ _); [reflexivity |].
  destruct (authenticate _ _); [reflexivity |].
  destruct (answer_records _ _); reflexivity.
Qed.

Lemma page_limit_param ps1 ps2 :
  param_get "limit" ps1 = param_get "limit" ps2 -> page_limit ps1 = page_limit ps2.
Proof. intro H. unfold page_limit, param_or. rewrite H. reflexivity. Qed.

Lemma page_offset_param ps1 ps2 :
  param_get "offset" ps1 = param_get "offset" ps2 -> page_offset ps1 = page_offset ps2.
Proof. intro H. unfold page_offset, param_or. rewrite H. reflexivity. Qed.

(** The pagination of a successful listing depends on the limit and offset
    parameters only: the status and animal_type filters change neither the
    total nor has_more. *)
Theorem list_pagination_ignores_filters env m h ps1 ps2 b1 b2 s
    resp1 s1 recs1 pg1 resp2 s2 recs2 pg2 :
  param_get "limit" ps1 = param_get "limit" ps2 ->
  param_get "offset" ps1 = param_get "offset" ps2 ->
  get_animal_records env (mkRequest m h ps1 b1) s = (resp1, s1) ->
  body resp1 = ListOk recs1 pg1 ->
  get_animal_records env (mkRequest m h ps2 b2) s = (resp2, s2) ->
  body resp2 = ListOk recs2 pg2 ->
  pg1 = pg2.
Proof.
  intros Hl Ho Hr1 Hk1 Hr2 Hk2.
  destruct (list_ok_inv env _ s resp1 s1 recs1 pg1 Hr1 Hk1) as [_ [u1 [Ha1 [_ Hp1]]]].
  destruct (list_ok_inv env _ s resp2 s2 recs2 pg2 Hr2 Hk2) as [_ [u2 [Ha2 [_ Hp2]]]].
  simpl in *. unfold authenticate in Ha1, Ha2. simpl in Ha1, Ha2.
  rewrite Ha1 in Ha2. injection Ha2 as <-.
  rewrite Hp1, Hp2, (page_limit_param _ _ Hl), (page_offset_param _ _ Ho). reflexivity.
Qed.

(** When the limit or the offset parameter does not parse as an integer, a
    successful listing reports has_more false and queries a NaN range end. *)
Theorem list_unparsable_page_no_more env req s resp s' recs pg :
  get_animal_records env req s = (resp, s') ->
  body resp = ListOk recs pg ->
  parseInt (param_or "limit" "50" (query_params req)) = NaN \/
  parseInt (param_or "offset" "0" (query_params req)) = NaN ->
  has_more pg = false /\
  (exists uid, answer_records env (list_query uid (query_params req)) = inr recs /\
     q_range_to (list_query uid (query_params req)) = NaN).
Proof.
  intros Hrun Hok Hnan.
  destruct (list_ok_inv env req s resp s' recs pg Hrun Hok) as [_ [uid [_ [Hans Hpg]]]].
  assert (Hsum : js_add (page_offset (query_params req)) (page_limit (query_params req)) = NaN).
  { unfold page_offset, page_limit.
    destruct Hnan as [H | H]; rewrite H; simpl; [| reflexivity].
    destruct (parseInt (param_or "offset" "0" (query_params req))); reflexivity. }
  split.
  - rewrite Hpg. simpl. rewrite Hsum. reflexivity.
  - exists uid. split; [exact Hans |]. simpl. rewrite Hsum. reflexivity.
Qed.

Lemma substring_0_long s m : (String.length s <= m)%nat -> substring 0 m s = s.
Proof.
  revert m. induction s as [| c r IH]; intros m H.
  - destruct m; reflexivity.
  - destruct m as [| m]; simpl in H; [lia |]. simpl. rewrite IH by lia. reflexivity.
Qed.

Lemma replace_first_bearer tok : replace_first "Bearer " "" ("Bearer " ++ tok) = tok.
Proof.
  unfold replace_first.
  assert (Hi : String.index 0 "Bearer " ("Bearer " ++ tok) = Some 0%nat) by (destruct tok; vm_compute; reflexivity).
  rewrite Hi. simpl. rewrite substring_0_long by lia. reflexivity.
Qed.

(** An Authorization header [Bearer <token>] hands exactly [<token>] to the
    auth service. *)
Theorem authenticate_bearer_token g req tok :
  header_get "Authorization" (headers req) = Some ("Bearer " ++ tok) ->
  authenticate g req = match g tok with
                       | Some uid => inr uid
                       | None => inl (err 401 "Invalid or expired token" None)
                       end.
Proof.
  intro H. unfold authenticate. rewrite H.
  assert (Hne : String.eqb ("Bearer " ++ tok) "" = false) by reflexivity.
  rewrite Hne, replace_first_bearer. reflexivity.
Qed.

Lemma update_auth_early env req s r :
  String.eqb (method req) "OPTIONS" = false ->
  authenticate (update_get_user env) req = inl r ->
  update_animal_record env req s = (r, s).
Proof.
  intros Hm Ha. unfold update_animal_record. rewrite Hm. unfold_update. rewrite Ha. reflexivity.
Qed.

Lemma list_auth_early env req s r :
  String.eqb (method req) "OPTIONS" = false ->
  authenticate (list_get_user env) req = inl r ->
  get_animal_records env req s = (r, s).
Proof.
  intros Hm Ha. unfold get_animal_records, run_handler, list_body. rewrite Hm, Ha. reflexivity.
Qed.

(** Both record handlers answer 401 "Authorization header required" to a
    request without (or with an empty) Authorization header, and 401 "Invalid
    or expired token" when the auth service rejects the token; the store is
    unchanged. *)
Theorem record_handlers_require_credentials :
  (forall lenv uenv req s,
     String.eqb (method req) "OPTIONS" = false ->
     header_get "Authorization" (headers req) = None \/
     header_get "Authorization" (headers req) = Some "" ->
     get_animal_records lenv req s = (err 401 "Authorization header required" None, s) /\
     update_animal_record uenv req s = (err 401 "Authorization header required" None, s)) /\
  (forall lenv uenv req s h,
     String.eqb (method req) "OPTIONS" = false ->
     header_get "Authorization" (headers req) = Some h -> h <> "" ->
     list_get_user lenv (replace_first "Bearer " "" h) = None ->
     update_get_user uenv (replace_first "Bearer " "" h) = None ->
     get_animal_records lenv req s = (err 401 "Invalid or expired token" None, s) /\
     update_animal_record uenv req s = (err 401 "Invalid or expired token" None, s)).
Proof.
  split.
  - intros lenv uenv req s Hm Hh.
    assert (Ha : forall g, authenticate g req = inl (err 401 "Authorization header required" None)).
    { intro g. unfold authenticate. destruct Hh as [-> | ->]; reflexivity. }
    split; [apply list_auth_early | apply update_auth_early]; auto.
  - intros lenv uenv req s h Hm Hh Hne Hl Hu.
    assert (Ha : forall g, g (replace_first "Bearer " "" h) = None ->
                 authenticate g req = inl (err 401 "Invalid or expired token" None)).
    { intros g Hg. unfold authenticate. rewrite Hh, Hg.
      destruct (String.eqb_spec h ""); [contradiction | reflexivity]. }
    split; [apply list_auth_early | apply update_auth_early]; auto.
Qed.

(** No update call changes the id, owner, animal_id, animal_type, predicted
    breed, confidence score, image URL or creation time of any record, nor
    the number of records. *)
Theorem update_preserves_fixed_columns env req s :
  map fixed_columns (animal_records (snd (update_animal_record env req s)))
  = map fixed_columns (animal_records s).
Proof.
  unfold update_animal_record.
  destruct (String.eqb (method req) "OPTIONS"); [reflexivity |].
  unfold_update.
  destruct (authenticate (update_get_user env) req); [reflexivity |].
  split_matches; simpl; try reflexivity.
  all: rewrite map_map; apply map_ext; intro;
    repeat match goal with |- context [if ?c then _ else _] => destruct c end;
    reflexivity.
Qed.

Lemma filter_single {A} (f : A -> bool) xs x :
  filter f xs = [x] ->
  exists pre post, xs = (pre ++ x :: post)%list /\ f x = true /\
    (forall y, In y pre \/ In y post -> f y = false).
Proof.
  induction xs as [| y ys IH]; simpl; [discriminate |].
  destruct (f y) eqn:Fy; intro H.
  - injection H as <- Hnil. exists [], ys. split; [reflexivity | split; [exact Fy |]].
    intros z [[] | Hz]. destruct (f z) eqn:Fz; [| reflexivity].
    assert (In z (filter f ys)) by (apply filter_In; auto). rewrite Hnil in H. contradiction.
  - destruct (IH H) as [pre [post [E [Fx Hout]]]].
    exists (y :: pre), post. split; [rewrite E; reflexivity | split; [exact Fx |]].
    intros z [[<- | Hz] | Hz]; [exact Fy | apply Hout; auto | apply Hout; auto].
Qed.

Lemma map_id_out {A} (f : A -> bool) (g : A -> A) xs :
  (forall y, In y xs -> f y = false) -> map (fun y => if f y then g y else y) xs = xs.
Proof.
  induction xs as [| y ys IH]; intro H; [reflexivity |].
  simpl. rewrite H by (left; reflexivity). rewrite IH; [reflexivity |].
  intros z Hz. apply H. right. exact Hz.
Qed.

(** An update call changes at most one record, and only one owned by the
    authenticated caller. *)
Theorem update_changes_at_most_one_record env req s uid :
  authenticate (update_get_user env) req = inr uid ->
  let rs := animal_records s in
  let rs' := animal_records (snd (update_animal_record env req s)) in
  rs' = rs \/
  exists pre r r' post,
    rs = (pre ++ r :: post)%list /\ rs' = (pre ++ r' :: post)%list /\
    owned_by uid r = true /\ fixed_columns r' = fixed_columns r.
Proof.
  intros Hauth rs rs'. subst rs rs'.
  unfold update_animal_record.
  destruct (String.eqb (method req) "OPTIONS"); [left; reflexivity |].
  unfold_update. rewrite Hauth.
  split_matches; simpl in *; try discriminate; try (left; reflexivity).
  all: right.
  all: match goal with
  | E : filter (update_filter ?rid ?u) ?rs = [?x] |- _ =>
      destruct (filter_single _ _ _ E) as [pre [post [Hs [Fx Hout]]]];
      eexists pre, x, _, post; rewrite Hs, map_app; simpl; rewrite Fx;
      rewrite !map_id_out by (intros y Hy; apply Hout; auto);
      split; [reflexivity | split; [reflexivity | split; [| reflexivity]]];
      unfold update_filter in Fx; apply andb_prop in Fx as [_ Fx]; exact Fx
  end.
Qed.

(** An authenticated update whose body has no truthy record_id is answered
    with 400 "record_id is required" and writes nothing. *)
Theorem update_requires_record_id env req s uid fs :
  String.eqb (method req) "OPTIONS" = false ->
  authenticate (update_get_user env) req = inr uid ->
  req_body req = Some (JObj fs) ->
  truthy (prop "record_id" fs) = false ->
  update_animal_record env req s = (err 400 "record_id is required" None, s).
Proof.
  intros Hm Ha Hb Hr. unfold update_animal_record. rewrite Hm. unfold_update.
  rewrite Ha, Hb. simpl. rewrite Hr. reflexivity.
Qed.





(** ** Witnesses of the further properties *)

Lemma storage_target_public_path_witness :
  storage_target ("/storage/v1/object/public/" ++ "animal-images" ++ "/"
                  ++ "user-a/1700000000000.jpg")
  = Some ("animal-images", "user-a/1700000000000.jpg").
Proof.
  apply storage_target_public_path; [discriminate | reflexivity |].
  simpl. intros [H | [H | []]]; discriminate H.
Defined.


Lemma upsert_one_row_per_key_witness :
  let row := mkUpsertRow (JStr "user-b") (JStr "A-17") (JStr "cattle") "sahiwal" 0.12
               cattle_url (JStr "pending") in
  let up := upsert_on_conflict "rec-new" 2000 row [record_of_b] in
  length (key_rows row (fst up)) = Nat.max 1 (length (key_rows row [record_of_b])) /\
  (key_rows row [record_of_b] <> [] -> length (fst up) = length [record_of_b]) /\
  (key_rows row [record_of_b] = [] -> length (fst up) = S (length [record_of_b])).
Proof.
  exact (upsert_one_row_per_key "rec-new" 2000
           (mkUpsertRow (JStr "user-b") (JStr "A-17") (JStr "cattle") "sahiwal" 0.12
              cattle_url (JStr "pending")) [record_of_b]).
Defined.

Lemma classify_failure_writes_nothing_witness :
  snd (classify_breed classify_env_ok (obtain_by_fetch fetch_ok) (classify_request "goat")
         store_of_b) = store_of_b.
Proof.
  apply classify_failure_writes_nothing.
  intros rid preds top t H. vm_compute in H. discriminate H.
Defined.

Lemma classify_repeat_keeps_record_count_witness :
  length (animal_records (snd (classify_breed classify_env_ok (obtain_by_fetch fetch_ok)
                                 (classify_request "cattle") (snd (run_classify "cattle")))))
  = length (animal_records (snd (run_classify "cattle"))).
Proof.
  apply (classify_repeat_keeps_record_count classify_env_ok (obtain_by_fetch fetch_ok)
           (classify_request "cattle") (mkStore [] [])
           (fst (run_classify "cattle")) (snd (run_classify "cattle")) "rec-new"
           (mock_predictions (Some (JStr "cattle"))) (mkPrediction "gir" 0.85) 42%Z);
    vm_compute; reflexivity.
Defined.

Lemma classify_logs_prediction_witness :
  exists fs url,
    req_body (classify_request "cattle") = Some (JObj fs) /\
    http_image_url (prop "image_url" fs) = inr url /\
    breed_predictions (snd (run_classify "cattle")) =
      match log_insert_error classify_env_ok with
      | Some _ => breed_predictions (mkStore [] [])
      | None => (breed_predictions (mkStore [] [])
                  ++ [mkPredictionLog "rec-new" url (mock_predictions (Some (JStr "cattle")))
                        "resnet-50-v1.0" 42])%list
      end.
Proof.
  apply (classify_logs_prediction classify_env_ok (obtain_by_fetch fetch_ok)
           (classify_request "cattle") (mkStore [] [])
           (fst (run_classify "cattle")) (snd (run_classify "cattle")) "rec-new"
           (mock_predictions (Some (JStr "cattle"))) (mkPrediction "gir" 0.85) 42%Z);
    vm_compute; reflexivity.
Defined.

Lemma classify_storage_variant_agrees_witness :
  classify_breed classify_env_ok
    (obtain_via_storage (fun _ => Some "/storage/v1/object/public/animal-images/a.jpg")
       (fun _ _ => false) fetch_ok)
    (classify_request "cattle") (mkStore [] [])
  = classify_breed classify_env_ok (obtain_by_fetch fetch_ok) (classify_request "cattle")
      (mkStore [] []).
Proof.
  apply (classify_storage_variant_agrees classify_env_ok
           (fun _ => Some "/storage/v1/object/public/animal-images/a.jpg")
           (fun _ _ => false) fetch_ok (classify_request "cattle") (mkStore [] [])).
  intro u. reflexivity.
Defined.

(** The dashboard's call: no query parameter, its page in the body. *)
Lemma list_ignores_body_witness :
  p_limit (mkPagination 120 (Int 50) (Int 0) true) = Int 50 /\
  p_offset (mkPagination 120 (Int 50) (Int 0) true) = Int 0.
Proof.
  apply (proj2 (list_ignores_body list_env_ok "POST" (bearer "token-b") [] None None store_120)
           (Some (JObj [("limit", JNum 5); ("offset", JNum 0)]))
           (fst (get_animal_records list_env_ok
                   (mkRequest "POST" (bearer "token-b") []
                      (Some (JObj [("limit", JNum 5); ("offset", JNum 0)]))) store_120))
           store_120 [] (mkPagination 120 (Int 50) (Int 0) true));
    vm_compute; reflexivity.
Defined.

Lemma list_pagination_ignores_filters_witness :
  mkPagination 120 (Int 50) (Int 0) true = mkPagination 120 (Int 50) (Int 0) true.
Proof.
  apply (list_pagination_ignores_filters list_env_ok "GET" (bearer "token-b")
           [("status", "verified")] [] None None store_120
           (fst (run_list [("status", "verified")])) store_120 []
           (mkPagination 120 (Int 50) (Int 0) true)
           (fst (run_list [])) store_120 []
           (mkPagination 120 (Int 50) (Int 0) true)); vm_compute; reflexivity.
Defined.

Lemma list_unparsable_page_no_more_witness :
  has_more (mkPagination 120 NaN (Int 0) false) = false /\
  (exists uid, answer_records list_env_ok (list_query uid [("limit", "abc")]) = inr [] /\
     q_range_to (list_query uid [("limit", "abc")]) = NaN).
Proof.
  apply (list_unparsable_page_no_more list_env_ok (list_request [("limit", "abc")]) store_120
           (fst (run_list [("limit", "abc")])) store_120 []);
    [vm_compute; reflexivity | vm_compute; reflexivity | left; vm_compute; reflexivity].
Defined.

Lemma authenticate_bearer_token_witness :
  authenticate tokens (list_request []) = inr "user-b".
Proof.
  rewrite (authenticate_bearer_token tokens (list_request []) "token-b"); reflexivity.
Defined.

Lemma record_handlers_require_credentials_witness :
  let anonymous := mkRequest "GET" [] [] None in
  let stranger := mkRequest "GET" (bearer "token-x") [] None in
  (get_animal_records list_env_ok anonymous store_of_b
   = (err 401 "Authorization header required" None, store_of_b) /\
   update_animal_record update_env_ok anonymous store_of_b
   = (err 401 "Authorization header required" None, store_of_b)) /\
  (get_animal_records list_env_ok stranger store_of_b
   = (err 401 "Invalid or expired token" None, store_of_b) /\
   update_animal_record update_env_ok stranger store_of_b
   = (err 401 "Invalid or expired token" None, store_of_b)).
Proof.
  split.
  - apply (proj1 record_handlers_require_credentials); [reflexivity | left; reflexivity].
  - apply (proj2 record_handlers_require_credentials list_env_ok update_env_ok
             (mkRequest "GET" (bearer "token-x") [] None) store_of_b "Bearer token-x");
      first [reflexivity | discriminate].
Defined.

Lemma update_changes_at_most_one_record_witness :
  let rs := animal_records store_of_b in
  let rs' := animal_records (snd (update_animal_record update_env_ok
                                    (req_set_status "token-b" "verified") store_of_b)) in
  rs' = rs \/
  exists pre r r' post,
    rs = (pre ++ r :: post)%list /\ rs' = (pre ++ r' :: post)%list /\
    owned_by "user-b" r = true /\ fixed_columns r' = fixed_columns r.
Proof.
  apply update_changes_at_most_one_record. reflexivity.
Defined.

Lemma update_requires_record_id_witness :
  update_animal_record update_env_ok
    (mkRequest "POST" (bearer "token-b") [] (Some (JObj [("notes", JStr "checked")])))
    store_of_b
  = (err 400 "record_id is required" None, store_of_b).
Proof.
  apply (update_requires_record_id update_env_ok _ store_of_b "user-b"
           [("notes", JStr "checked")]); reflexivity.
Defined.

